(** * Calendar-appointment: the scheduling and client store

    A shallow embedding of the class [ScheduleSystem] of
    [src/calendar_schedule.py], and the properties of its booking,
    editing, reporting and client operations.

    Conventions of the embedding.
    - A Python [str] is a [string]; a list is a [list].
    - An appointment is a dict whose ten keys are fixed by
      [make_appointment] and never added or removed afterwards: it is a
      record.  A client is a dict that [update_client] merges with an
      arbitrary dict: it is a finite map from keys to values.
    - The object's attributes [clients], [settings] and [appointments] are
      the fields of the record [Store]; a method takes the store and returns
      its result together with the store it leaves.  The [_save_*] methods
      only write files that are never read back after start-up, so they
      leave the store as it is.
    - Item assignment on a dict found in a list ([app['date'] = ...])
      replaces the element at the position where it was found.
    - [uuid.uuid4()] and [datetime.now()] are inputs of the operation that
      calls them.
    - The fee is a Python number; the development is parametric in the type
      of numbers and in its addition, and assumes no law about them.
    - [datetime.strptime(s, '%Y-%m-%d')] is a parameter [strptime]: the day
      number of the date [s] denotes, or [None] where Python raises
      [ValueError].  [Dates.strptime_ymd] is the instance used on concrete
      inputs.
    - [str.lower] and the text [csv] writes for a fee are parameters too,
      [lower] and [num_str]; [Text.lower_ascii] and [pretty] are the
      instances used on concrete inputs. *)

From Stdlib Require Import Ascii.
From stdpp Require Import strings gmap list pretty.

Open Scope string_scope.

(** ** Exceptions and results *)

Inductive exn := KeyError | ValueError | AttributeError.

Inductive result (A : Type) :=
  | Return (a : A)
  | Raise (e : exn).
Arguments Return {A} a.
Arguments Raise {A} e.

(** Truth value of a string in a condition: the empty string is false. *)
Definition truthy (s : string) : bool :=
  match s with
  | EmptyString => false
  | String _ _ => true
  end.

(** ** Values stored in a client dict *)

#[local] Set Warnings "-register-all".
Inductive pyval :=
  | PNone
  | PStr (s : string)
  | PList (l : list pyval)
  | PDict (d : list (string * pyval)).
#[local] Set Warnings "register-all".

(** [v == s] for a string [s]: a value that is not a string differs. *)
Definition py_eq_str (v : pyval) (s : string) : bool :=
  match v with
  | PStr s' => bool_decide (s' = s)
  | _ => false
  end.

Abbreviation Client := (gmap string pyval).

Section ScheduleSystem.

Context {num : Type}.
Context (num_zero : num) (num_add : num → num → num).
Context (strptime : string → option Z).

(** ** Data model *)

Record Appointment := mkAppointment {
  app_id : string;
  client_id : string;
  client_name : string;
  date : string;
  slot_number : string;
  payment_status : string;
  total_fee : num;
  status : string;
  comment : string;
  timestamp : string
}.

Record Settings := mkSettings {
  session_fee : num;
  time_slots : list string
}.

Record Store := mkStore {
  clients : list Client;
  settings : Settings;
  appointments : list Appointment
}.

Definition set_appointments (st : Store) (apps : list Appointment) : Store :=
  {| clients := clients st; settings := settings st; appointments := apps |}.

Definition set_settings (st : Store) (s : Settings) : Store :=
  {| clients := clients st; settings := s; appointments := appointments st |}.

Definition set_clients (st : Store) (cl : list Client) : Store :=
  {| clients := cl; settings := settings st; appointments := appointments st |}.

(** The store [__init__] builds when no client or appointment is on file,
    with the settings [_load_settings] returned. *)
Definition init_store (s : Settings) : Store :=
  {| clients := []; settings := s; appointments := [] |}.

(** ** Slots *)

(** The condition of the comprehensions of [get_available_slots] and
    [get_booked_slots]. *)
Definition occupies (date_str : string) (app : Appointment) : Prop :=
  date app = date_str ∧ status app ≠ "Cancelled".

#[global] Instance occupies_dec date_str app : Decision (occupies date_str app).
Proof. unfold occupies. apply _. Defined.

(** The list [booked_slots] of [get_available_slots]. *)
Definition booked_slot_labels (st : Store) (date_str : string) : list string :=
  slot_number <$> filter (occupies date_str) (appointments st).

Definition get_available_slots (st : Store) (date_str : string) : list string :=
  let all_slots := time_slots (settings st) in
  let booked_slots := booked_slot_labels st date_str in
  filter (λ slot, slot ∉ booked_slots) all_slots.

Definition get_total_slots_global (st : Store) : nat :=
  length (time_slots (settings st)).

Definition set_time_slots (st : Store) (new_slots : list string) : bool * Store :=
  (true, set_settings st
           {| session_fee := session_fee (settings st); time_slots := new_slots |}).

Definition get_booked_slots (st : Store) (date_str : string) : nat :=
  length (filter (occupies date_str) (appointments st)).

Definition get_session_fee (st : Store) : num := session_fee (settings st).

(** [float(new_fee)] is the input [fee]: [Some] of the number, or [None]
    where the conversion raises [ValueError]. *)
Definition update_session_fee (st : Store) (fee : option num) : bool * Store :=
  match fee with
  | Some f =>
      (true, set_settings st
               {| session_fee := f; time_slots := time_slots (settings st) |})
  | None => (false, st)
  end.

(** ** Appointments *)

Definition make_appointment (st : Store)
    (date_str cid cname slot cmt : string) (uuid4 now : string)
  : (bool * string) * Store :=
  if decide (slot ∉ get_available_slots st date_str) then
    ((false, "Slot " +:+ (slot +:+ " is not available for this date.")), st)
  else
    let new_appointment :=
      {| app_id := uuid4;
         client_id := cid;
         client_name := cname;
         date := date_str;
         slot_number := slot;
         payment_status := "Unpaid";
         total_fee := get_session_fee st;
         status := "Booked";
         comment := cmt;
         timestamp := now |} in
    ((true, "Appointment booked successfully."),
     set_appointments st (appointments st ++ [new_appointment])).

Definition delete_appointment (st : Store) (appointment_id : string)
  : bool * Store :=
  (true, set_appointments st
           (filter (λ app, app_id app ≠ appointment_id) (appointments st))).

(** [next((app for app in self.appointments if app['id'] == i), None)]:
    the first appointment with that id, and its position. *)
Definition find_appointment (st : Store) (appointment_id : string)
  : option (nat * Appointment) :=
  list_find (λ app, app_id app = appointment_id) (appointments st).

Definition edited (app : Appointment) (new_date_str new_slot new_comment : string)
  : Appointment :=
  {| app_id := app_id app;
     client_id := client_id app;
     client_name := client_name app;
     date := new_date_str;
     slot_number := new_slot;
     payment_status := payment_status app;
     total_fee := total_fee app;
     status := status app;
     comment := new_comment;
     timestamp := timestamp app |}.

Definition edit_appointment (st : Store)
    (appointment_id new_date_str new_slot new_comment : string)
  : (bool * string) * Store :=
  match find_appointment st appointment_id with
  | None => ((false, "Appointment not found."), st)
  | Some (i, app_to_edit) =>
      if decide ((new_slot ∉ get_available_slots st new_date_str)
                 ∧ (new_slot ≠ slot_number app_to_edit))
      then
        ((false, "Slot " +:+ (new_slot +:+ (" is not available on "
                   +:+ (new_date_str +:+ ".")))), st)
      else
        ((true, "Appointment successfully updated."),
         set_appointments st
           (<[i := edited app_to_edit new_date_str new_slot new_comment]>
              (appointments st)))
  end.

Definition get_all_appointments (st : Store) : list Appointment :=
  appointments st.

Definition with_payment_status (app : Appointment) (s : string) : Appointment :=
  {| app_id := app_id app;
     client_id := client_id app;
     client_name := client_name app;
     date := date app;
     slot_number := slot_number app;
     payment_status := s;
     total_fee := total_fee app;
     status := status app;
     comment := comment app;
     timestamp := timestamp app |}.

Definition update_appointment_payment_status (st : Store)
    (appointment_id new_status : string) : bool * Store :=
  match find_appointment st appointment_id with
  | Some (i, app) =>
      (true, set_appointments st
               (<[i := with_payment_status app new_status]> (appointments st)))
  | None => (false, st)
  end.

(** ** The daily status advancement *)

Definition with_status (app : Appointment) (s : string) : Appointment :=
  {| app_id := app_id app;
     client_id := client_id app;
     client_name := client_name app;
     date := date app;
     slot_number := slot_number app;
     payment_status := payment_status app;
     total_fee := total_fee app;
     status := s;
     comment := comment app;
     timestamp := timestamp app |}.

(** The body of the loop of [run_daily_tasks] for one appointment; [today]
    is [datetime.now().strftime('%Y-%m-%d')]. *)
Definition daily_step (today : string) (app : Appointment) : result Appointment :=
  let app_date := date app in
  let app_status := status app in
  if truthy app_date && truthy app_status then
    match strptime app_date with
    | None => Raise ValueError
    | Some app_date_dt =>
        match strptime today with
        | None => Raise ValueError
        | Some today_dt =>
            if decide ((app_date_dt < today_dt)%Z ∧ app_status = "Booked") then
              Return (with_status app "Completed")
            else if decide (app_date_dt = today_dt ∧ app_status = "Booked") then
              Return (with_status app "Pending")
            else Return app
        end
    end
  else Return app.

(** The loop: the appointments as the loop leaves them, and the exception
    that stopped it, if one did. *)
Fixpoint daily_loop (today : string) (apps : list Appointment)
  : list Appointment * option exn :=
  match apps with
  | [] => ([], None)
  | app :: rest =>
      match daily_step today app with
      | Raise e => (app :: rest, Some e)
      | Return app' =>
          let '(rest', r) := daily_loop today rest in (app' :: rest', r)
      end
  end.

Definition run_daily_tasks (st : Store) (today : string) : result unit * Store :=
  match daily_loop today (appointments st) with
  | (apps, None) => (Return (), set_appointments st apps)
  | (apps, Some e) => (Raise e, set_appointments st apps)
  end.

(** ** The financial report *)

Record Report := mkReport {
  total_revenue : num;
  total_paid : num;
  total_unpaid : num;
  total_bookings : nat;
  filtered_appointments : list Appointment
}.

(** The body of the loop of [get_report_data] for one appointment. *)
Definition report_step (start_date_dt end_date_dt : Z) (acc : Report)
    (app : Appointment) : result Report :=
  match strptime (date app) with
  | None => Raise ValueError
  | Some app_date_dt =>
      if decide ((start_date_dt ≤ app_date_dt ∧ app_date_dt ≤ end_date_dt)%Z
                 ∧ status app ≠ "Cancelled")
      then
        let paid := bool_decide (payment_status app = "Paid") in
        Return
          {| filtered_appointments := filtered_appointments acc ++ [app];
             total_bookings := total_bookings acc + 1;
             total_revenue := num_add (total_revenue acc) (total_fee app);
             total_paid :=
               if paid then num_add (total_paid acc) (total_fee app)
               else total_paid acc;
             total_unpaid :=
               if paid then total_unpaid acc
               else num_add (total_unpaid acc) (total_fee app) |}
      else Return acc
  end.

Fixpoint report_loop (start_date_dt end_date_dt : Z) (acc : Report)
    (apps : list Appointment) : result Report :=
  match apps with
  | [] => Return acc
  | app :: rest =>
      match report_step start_date_dt end_date_dt acc app with
      | Raise e => Raise e
      | Return acc' => report_loop start_date_dt end_date_dt acc' rest
      end
  end.

(** [Return None] is the method's [return None]. *)
Definition get_report_data (st : Store) (start_date_str end_date_str : string)
  : result (option Report) :=
  match strptime start_date_str with
  | None => Return None
  | Some start_date_dt =>
      match strptime end_date_str with
      | None => Return None
      | Some end_date_dt =>
          match report_loop start_date_dt end_date_dt
                  {| total_revenue := num_zero; total_paid := num_zero;
                     total_unpaid := num_zero; total_bookings := 0;
                     filtered_appointments := [] |}
                  (appointments st) with
          | Raise e => Raise e
          | Return r => Return (Some r)
          end
      end
  end.

(** ** Clients *)

(** The first client of [cl] whose ['id'] equals [cid], with its position
    counted from [i]; [KeyError] when a client met before it has no ['id']. *)
Fixpoint find_client_from (i : nat) (cl : list Client) (cid : string)
  : result (option (nat * Client)) :=
  match cl with
  | [] => Return None
  | client :: rest =>
      match client !! "id" with
      | None => Raise KeyError
      | Some v =>
          if py_eq_str v cid then Return (Some (i, client))
          else find_client_from (S i) rest cid
      end
  end.

Definition find_client (st : Store) (cid : string)
  : result (option (nat * Client)) :=
  find_client_from 0 (clients st) cid.

Definition get_client_by_id (st : Store) (cid : string) : result (option Client) :=
  match find_client st cid with
  | Raise e => Raise e
  | Return None => Return None
  | Return (Some (_, client)) => Return (Some client)
  end.

(** [d.get(k)]: the value, or [None]. *)
Definition dict_get (d : Client) (k : string) : pyval := default PNone (d !! k).

Definition register_client (st : Store) (client_info : Client)
    (uuid4 now : string) : Client * Store :=
  let new_client : Client :=
    <["id" := PStr uuid4]>
      (<["registration_date" := PStr now]>
         (<["name" := dict_get client_info "name"]>
            (<["dob" := dict_get client_info "dob"]>
               (<["email" := dict_get client_info "email"]>
                  (<["cellphone" := dict_get client_info "cellphone"]>
                     (<["comments" := PList []]>
                        (<["documents" := PList []]> ∅))))))) in
  (new_client, set_clients st (clients st ++ [new_client])).

(** [client[key].append(item)]. *)
Definition dict_append (client : Client) (key : string) (item : pyval)
  : result Client :=
  match client !! key with
  | None => Raise KeyError
  | Some (PList l) => Return (<[key := PList (l ++ [item])]> client)
  | Some _ => Raise AttributeError
  end.

Definition add_comment (st : Store) (cid cmt : string) (now : string)
  : result bool * Store :=
  match find_client st cid with
  | Raise e => (Raise e, st)
  | Return None => (Return false, st)
  | Return (Some (i, client)) =>
      match dict_append client "comments"
              (PDict [("timestamp", PStr now); ("text", PStr cmt)]) with
      | Raise e => (Raise e, st)
      | Return client' =>
          (Return true, set_clients st (<[i := client']> (clients st)))
      end
  end.

(** [d.update(new_info)]: the keys of [new_info] take its values. *)
Definition dict_update (d new_info : Client) : Client := new_info ∪ d.

Definition update_client (st : Store) (cid : string) (new_info : Client)
  : result bool * Store :=
  match find_client st cid with
  | Raise e => (Raise e, st)
  | Return None => (Return false, st)
  | Return (Some (i, client)) =>
      (Return true,
       set_clients st (<[i := dict_update client new_info]> (clients st)))
  end.

(** [[client for client in cl if client['id'] != cid]]. *)
Fixpoint clients_without (cl : list Client) (cid : string)
  : result (list Client) :=
  match cl with
  | [] => Return []
  | client :: rest =>
      match client !! "id" with
      | None => Raise KeyError
      | Some v =>
          match clients_without rest cid with
          | Raise e => Raise e
          | Return rest' =>
              Return (if py_eq_str v cid then rest' else client :: rest')
          end
      end
  end.

Definition delete_client (st : Store) (cid : string) : result bool * Store :=
  let initial_count := length (clients st) in
  match clients_without (clients st) cid with
  | Raise e => (Raise e, st)
  | Return cl =>
      let st' := set_clients st cl in
      if decide (length cl < initial_count) then (Return true, st')
      else (Return false, st')
  end.

(** [amount_2f] is the text of [f"{amount:.2f}"]. *)
Definition update_payment (st : Store) (cid : string) (amount_2f now : string)
  : result bool * Store :=
  match find_client st cid with
  | Raise e => (Raise e, st)
  | Return None => (Return false, st)
  | Return (Some _) =>
      let cmt := "Received payment of $" +:+ (amount_2f +:+ ".") in
      match add_comment st cid cmt now with
      | (Raise e, st') => (Raise e, st')
      | (Return _, st') => (Return true, st')
      end
  end.

(** [filename] and [dest_path] are what [os.path] computes from [file_path];
    [copied] tells whether [shutil.copy] went through, and [err] is the text
    of the exception the [except] clause catches, if it catches one. *)
Definition upload_document_to_client (st : Store) (cid : string)
    (filename dest_path now : string) (copied : bool) (err : string)
  : result (bool * string) * Store :=
  match find_client st cid with
  | Raise e => (Raise e, st)
  | Return None => (Return (false, "Client not found."), st)
  | Return (Some (i, client)) =>
      if copied then
        let new_document :=
          PDict [("filename", PStr filename); ("path", PStr dest_path);
                 ("timestamp", PStr now)] in
        let client1 :=
          match client !! "documents" with
          | None => <["documents" := PList []]> client
          | Some _ => client
          end in
        match dict_append client1 "documents" new_document with
        | Raise _ => (Return (false, "Error uploading file: " +:+ err), st)
        | Return client' =>
            (Return (true, "File '" +:+ (filename +:+ "' uploaded successfully.")),
             set_clients st (<[i := client']> (clients st)))
        end
      else (Return (false, "Error uploading file: " +:+ err), st)
  end.

Definition get_all_clients (st : Store) : list Client := clients st.

(** ** Searching the clients *)

(** [q in s] on strings: [q] is a run of consecutive characters of [s]. *)
Fixpoint str_contains (s q : string) : bool :=
  String.prefix q s ||
  match s with
  | EmptyString => false
  | String _ s' => str_contains s' q
  end.

(** [str.lower] is a parameter. *)
Context (lower : string → string).

(** [client.get(key, "").lower()]: only a string has the method. *)
Definition lower_field (client : Client) (key : string) : result string :=
  match client !! key with
  | None => Return (lower "")
  | Some (PStr s) => Return (lower s)
  | Some _ => Raise AttributeError
  end.

(** The condition of the comprehension of [get_client_by_name_or_email];
    the email is looked at only when the name does not match. *)
Definition client_matches (query : string) (client : Client) : result bool :=
  match lower_field client "name" with
  | Raise e => Raise e
  | Return name =>
      if str_contains name query then Return true
      else
        match lower_field client "email" with
        | Raise e => Raise e
        | Return email => Return (str_contains email query)
        end
  end.

Fixpoint clients_matching (query : string) (cl : list Client)
  : result (list Client) :=
  match cl with
  | [] => Return []
  | client :: rest =>
      match client_matches query client with
      | Raise e => Raise e
      | Return keep =>
          match clients_matching query rest with
          | Raise e => Raise e
          | Return rest' => Return (if keep then client :: rest' else rest')
          end
      end
  end.

Definition get_client_by_name_or_email (st : Store) (query : string)
  : result (list Client) :=
  let query := lower query in
  clients_matching query (clients st).

(** ** Exporting the report of the day *)

(** [str] of a fee, as [csv.DictWriter] writes it, is a parameter. *)
Context (num_str : num → string).

Definition daily_report_fieldnames : list string :=
  ["id"; "client_name"; "date"; "slot_number"; "payment_status"; "total_fee";
   "status"; "comment"].

(** The fields [writer.writerow] is given for an appointment, in the order
    of the field names. *)
Definition daily_report_row (app : Appointment) : list string :=
  [app_id app; client_name app; date app; slot_number app; payment_status app;
   num_str (total_fee app); status app; comment app].

(** [today] is [datetime.now().strftime('%Y-%m-%d')]; [write_error] is the
    text of the exception that opening or writing the file raises, if it
    raises one.  The result is the method's pair, and the rows written when
    the file was written through: the header, then a row per appointment.
    The store is not changed. *)
Definition export_daily_report_to_csv (st : Store) (today : string)
    (write_error : option string)
  : result ((bool * string) * option (list (list string))) :=
  match get_report_data st today today with
  | Raise e => Raise e
  | Return None => Return ((false, "No data to export for today."), None)
  | Return (Some report_data) =>
      match filtered_appointments report_data with
      | [] => Return ((false, "No data to export for today."), None)
      | apps =>
          match write_error with
          | Some e => Return ((false, "An error occurred: " +:+ e), None)
          | None =>
              Return ((true, "Report exported successfully."),
                      Some (daily_report_fieldnames
                              :: (daily_report_row <$> apps)))
          end
      end
  end.

(** ** Notions the properties are stated with *)

(** The slot labels in use on a date, the available ones and the configured
    ones, as sets. *)
Definition used_slots (st : Store) (date_str : string) : gset string :=
  list_to_set (booked_slot_labels st date_str).

Definition available_slots (st : Store) (date_str : string) : gset string :=
  list_to_set (get_available_slots st date_str).

Definition configured_slots (st : Store) : gset string :=
  list_to_set (time_slots (settings st)).

(** The available and the used labels of a date split the configured ones. *)
Definition slots_partitioned (st : Store) (date_str : string) : Prop :=
  available_slots st date_str ## used_slots st date_str
  ∧ available_slots st date_str ∪ used_slots st date_str = configured_slots st.

(** Every appointment is on a configured slot label. *)
Definition slots_configured (st : Store) : Prop :=
  Forall (λ app, slot_number app ∈ time_slots (settings st)) (appointments st).

(** An appointment that is not cancelled and whose date is a day from
    [start_dt] to [end_dt], both included. *)
Definition in_report (start_dt end_dt : Z) (app : Appointment) : Prop :=
  match strptime (date app) with
  | Some d => (start_dt ≤ d ∧ d ≤ end_dt)%Z ∧ status app ≠ "Cancelled"
  | None => False
  end.

#[global] Instance in_report_dec start_dt end_dt app :
  Decision (in_report start_dt end_dt app).
Proof. unfold in_report. destruct (strptime (date app)); apply _. Defined.


(** The stored dates are dates. *)
Definition dates_well_formed (st : Store) : Prop :=
  Forall (λ app, is_Some (strptime (date app))) (appointments st).

(** The date and slot label of each appointment that is not cancelled, in
    the order of the list. *)
Definition occupied (apps : list Appointment) : list (string * string) :=
  (λ app, (date app, slot_number app))
    <$> filter (λ app, status app ≠ "Cancelled") apps.

(** No two appointments have the same id. *)
Definition ids_unique (st : Store) : Prop :=
  NoDup (app_id <$> appointments st).

(** Every client has a key ['id']. *)
Definition clients_have_ids (st : Store) : Prop :=
  Forall (λ client : Client, is_Some (client !! "id")) (clients st).

(** The client's id is the string [cid]. *)
Definition has_id (cid : string) (client : Client) : Prop :=
  client !! "id" = Some (PStr cid).

#[global] Instance has_id_dec cid client : Decision (has_id cid client).
Proof.
  unfold has_id. destruct (client !! "id") as [[| s | |]|];
    try (right; discriminate).
  destruct (decide (s = cid)) as [->|Hne]; [by left|right; congruence].
Defined.

(** A stored date that stops the loop of [run_daily_tasks]: the date and
    the status are not empty and the date is not a date. *)
Definition stops_daily (app : Appointment) : Prop :=
  truthy (date app) = true ∧ truthy (status app) = true
  ∧ strptime (date app) = None.

(** At most one appointment that is not cancelled on a slot label of a
    date: two positions of the list that hold such appointments with the
    same date and label are one position. *)
Definition one_appointment_per_slot (st : Store) : Prop :=
  ∀ i j a b,
    appointments st !! i = Some a →
    appointments st !! j = Some b →
    status a ≠ "Cancelled" →
    status b ≠ "Cancelled" →
    date a = date b →
    slot_number a = slot_number b →
    i = j.

(** ** Reachable stores *)

(** One call of a method that changes the store, except [set_time_slots].
    [uuid4] returns an identifier that is not in use. *)
Inductive call : Store → Store → Prop :=
  | call_make_appointment st date_str cid cname slot cmt uuid4 now :
      (∀ app, app ∈ appointments st → app_id app ≠ uuid4) →
      call st (make_appointment st date_str cid cname slot cmt uuid4 now).2
  | call_delete_appointment st appointment_id :
      call st (delete_appointment st appointment_id).2
  | call_edit_appointment st appointment_id new_date_str new_slot new_comment :
      call st (edit_appointment st appointment_id new_date_str new_slot
                 new_comment).2
  | call_update_appointment_payment_status st appointment_id new_status :
      call st (update_appointment_payment_status st appointment_id new_status).2
  | call_run_daily_tasks st today :
      call st (run_daily_tasks st today).2
  | call_update_session_fee st fee :
      call st (update_session_fee st fee).2
  | call_register_client st client_info uuid4 now :
      (∀ client, client ∈ clients st → client !! "id" ≠ Some (PStr uuid4)) →
      call st (register_client st client_info uuid4 now).2
  | call_add_comment st cid cmt now :
      call st (add_comment st cid cmt now).2
  | call_update_client st cid new_info :
      call st (update_client st cid new_info).2
  | call_delete_client st cid :
      call st (delete_client st cid).2
  | call_update_payment st cid amount_2f now :
      call st (update_payment st cid amount_2f now).2
  | call_upload_document_to_client st cid filename dest_path now copied err :
      call st (upload_document_to_client st cid filename dest_path now
                 copied err).2.

(** One call of any method that changes the store. *)
Inductive step : Store → Store → Prop :=
  | step_call st st' : call st st' → step st st'
  | step_set_time_slots st new_slots :
      step st (set_time_slots st new_slots).2.

(** The stores reached from an empty one. *)
Definition reachable (st : Store) : Prop :=
  ∃ s, rtc step (init_store s) st.

(** The stores reached from an empty one while the list of time slots stays
    as the settings gave it. *)
Definition reachable_keeping_slots (st : Store) : Prop :=
  ∃ s, rtc call (init_store s) st.

End ScheduleSystem.

Arguments Appointment : clear implicits.
Arguments Settings : clear implicits.
Arguments Store : clear implicits.
Arguments Report : clear implicits.

(** ** Dates: an instance of [strptime]

    [datetime.strptime(s, '%Y-%m-%d')] on ASCII text, after CPython's
    [_strptime]: the text is matched against
    [(\d\d\d\d)-(1[0-2]|0[1-9]|[1-9])-(3[01]|[12]\d|0[1-9]|[1-9]| [1-9])],
    nothing may follow the match, and the three numbers must be a date of
    the proleptic Gregorian calendar from year 1 on.  The result is the
    date's ordinal ([date.toordinal()]), which orders dates as Python does. *)
Module Dates.

#[local] Open Scope Z_scope.

Definition digit (c : ascii) : option Z :=
  let n := Z.of_N (Ascii.N_of_ascii c) in
  if decide (48 ≤ n ∧ n ≤ 57)%Z then Some (n - 48)%Z else None.

(** A digit between [lo] and [hi]. *)
Definition digit_in (lo hi : Z) (c : ascii) : option Z :=
  match digit c with
  | Some d => if decide (lo ≤ d ∧ d ≤ hi)%Z then Some d else None
  | None => None
  end.

(** [(\d\d\d\d)-]: the year and the text after the hyphen. *)
Definition parse_year (s : string) : option (Z * string) :=
  match s with
  | String a (String b (String c (String d (String "-"%char rest)))) =>
      match digit a, digit b, digit c, digit d with
      | Some a, Some b, Some c, Some d =>
          Some (1000 * a + 100 * b + 10 * c + d, rest)%Z
      | _, _, _, _ => None
      end
  | _ => None
  end.

(** [(1[0-2]|0[1-9]|[1-9])-]: the month and the text after the hyphen.  The
    hyphen that must follow leaves one alternative at most. *)
Definition parse_month (s : string) : option (Z * string) :=
  match s with
  | String a (String "-"%char rest) =>
      match digit_in 1 9 a with
      | Some m => Some (m, rest)
      | None => None
      end
  | String a (String b (String "-"%char rest)) =>
      match digit_in 1 1 a, digit_in 0 2 b with
      | Some _, Some m => Some (10 + m, rest)%Z
      | _, _ =>
          match digit_in 0 0 a, digit_in 1 9 b with
          | Some _, Some m => Some (m, rest)
          | _, _ => None
          end
      end
  | _ => None
  end.

(** [(3[01]|[12]\d|0[1-9]|[1-9]| [1-9])]: the first alternative that
    matches, and the text it leaves. *)
Definition parse_day (s : string) : option (Z * string) :=
  let two (lo1 hi1 lo2 hi2 : Z) : option (Z * string) :=
    match s with
    | String a (String b rest) =>
        match digit_in lo1 hi1 a, digit_in lo2 hi2 b with
        | Some x, Some y => Some (10 * x + y, rest)%Z
        | _, _ => None
        end
    | _ => None
    end in
  let one : option (Z * string) :=
    match s with
    | String a rest =>
        match digit_in 1 9 a with
        | Some x => Some (x, rest)
        | None => None
        end
    | _ => None
    end in
  let blank : option (Z * string) :=
    match s with
    | String " "%char (String b rest) =>
        match digit_in 1 9 b with
        | Some y => Some (y, rest)
        | None => None
        end
    | _ => None
    end in
  match two 3 3 0 1 with
  | Some r => Some r
  | None =>
      match two 1 2 0 9 with
      | Some r => Some r
      | None =>
          match two 0 0 1 9 with
          | Some r => Some r
          | None =>
              match one with
              | Some r => Some r
              | None => blank
              end
          end
      end
  end.

Definition is_leap (y : Z) : bool :=
  bool_decide (y mod 4 = 0 ∧ (y mod 100 ≠ 0 ∨ y mod 400 = 0))%Z.

Definition days_in_month (y m : Z) : Z :=
  if decide (m = 2)%Z then (if is_leap y then 29 else 28)%Z
  else if decide (m = 4 ∨ m = 6 ∨ m = 9 ∨ m = 11)%Z then 30%Z
  else 31%Z.

Definition days_before_year (y : Z) : Z :=
  let y1 := (y - 1)%Z in
  (y1 * 365 + y1 / 4 - y1 / 100 + y1 / 400)%Z.

(** The days of the months before month [m] of year [y]. *)
Definition days_before_month (y m : Z) : Z :=
  foldr Z.add 0%Z
    (days_in_month y <$> seqZ 1 (m - 1)).

Definition toordinal (y m d : Z) : Z :=
  (days_before_year y + days_before_month y m + d)%Z.

Definition strptime_ymd (s : string) : option Z :=
  match parse_year s with
  | None => None
  | Some (y, s1) =>
      match parse_month s1 with
      | None => None
      | Some (m, s2) =>
          match parse_day s2 with
          | Some (d, EmptyString) =>
              if decide (1 ≤ y ∧ 1 ≤ d ∧ d ≤ days_in_month y m)%Z
              then Some (toordinal y m d)
              else None
          | _ => None
          end
      end
  end.

End Dates.

(** ** Text: an instance of [lower]

    [str.lower] on ASCII text: the letters [A] to [Z] become [a] to [z] and
    every other character stays. *)
Module Text.

Definition lower_char (c : ascii) : ascii :=
  let n := Ascii.N_of_ascii c in
  if decide (65 ≤ n ∧ n ≤ 90)%N then Ascii.ascii_of_N (n + 32) else c.

Fixpoint lower_ascii (s : string) : string :=
  match s with
  | EmptyString => EmptyString
  | String c s' => String (lower_char c) (lower_ascii s')
  end.

End Text.

(** ** Concrete stores

    Fees are whole numbers here, with the addition of [Z]. *)
Module Scenario.

Definition default_time_slots : list string :=
  ["09:00"; "09:30"; "10:00"; "10:30"; "11:00"; "11:30"; "12:00"; "12:30";
   "13:00"; "13:30"; "14:00"; "14:30"; "15:00"; "15:30"; "16:00"].

(** The settings [_load_settings] returns when there is no settings file. *)
Definition default_settings : Settings Z :=
  {| session_fee := 50%Z; time_slots := default_time_slots |}.

Definition empty : Store Z := init_store default_settings.

(** Ann books 09:00 on 1 January. *)
Definition ann_booked : Store Z :=
  (make_appointment empty "2024-01-01" "c1" "Ann" "09:00" "" "a" "t1").2.

(** Bob books 09:00 on 2 January. *)
Definition both_booked : Store Z :=
  (make_appointment ann_booked "2024-01-02" "c2" "Bob" "09:00" "" "b" "t2").2.

(** Ann's appointment is moved to 2 January, on its own slot label. *)
Definition ann_moved : Store Z :=
  (edit_appointment both_booked "a" "2024-01-02" "09:00" "moved").2.

(** After Ann's booking the time slots are replaced. *)
Definition slots_replaced : Store Z :=
  (set_time_slots ann_booked ["10:00"; "10:30"]).2.

(** A third booking, on 3 January: with today 2 January, one appointment
    of yesterday, one of today, one of tomorrow. *)
Definition three_days : Store Z :=
  (make_appointment both_booked "2024-01-03" "c3" "Cy" "09:30" "" "c" "t3").2.

(** Two appointments on 2 January: one booked at a fee of 50 and paid, one
    booked at a fee of 70 and not paid. *)
Definition one_booked_at_50 : Store Z :=
  (make_appointment empty "2024-01-02" "c1" "Ann" "09:00" "" "a" "t1").2.

Definition one_paid : Store Z :=
  (update_appointment_payment_status one_booked_at_50 "a" "Paid").2.

Definition fee_raised : Store Z :=
  (update_session_fee one_paid (Some 70%Z)).2.

Definition paid_and_unpaid : Store Z :=
  (make_appointment fee_raised "2024-01-02" "c2" "Bob" "09:30" "" "b" "t2").2.

(** An appointment whose date is not a date. *)
Definition booked_someday : Store Z :=
  (make_appointment empty "someday" "c1" "Ann" "09:00" "" "a" "t1").2.

(** Two registered clients, and a dict that renames the second and gives
    it another id. *)
Definition ann_info : Client :=
  list_to_map [("name", PStr "Ann"); ("dob", PStr "1990-05-01");
               ("email", PStr "ann@example.org"); ("cellphone", PStr "555-0101")].

Definition bob_info : Client :=
  list_to_map [("name", PStr "Bob"); ("dob", PStr "1985-11-23");
               ("email", PStr "bob@example.org"); ("cellphone", PStr "555-0102")].

Definition ann_registered : Store Z :=
  (register_client empty ann_info "c1" "t0").2.

Definition two_clients : Store Z :=
  (register_client ann_registered bob_info "c2" "t1").2.

(** Ann is registered and has an appointment. *)
Definition ann_client_booked : Store Z :=
  (make_appointment ann_registered "2024-01-01" "c1" "Ann" "09:00" "" "a" "t1").2.

Definition robert_info : Client :=
  list_to_map [("id", PStr "c9"); ("name", PStr "Robert")].

(** The appointments of Ann and of Cy in [three_days]. *)
Definition ann_appointment : Appointment Z :=
  {| app_id := "a"; client_id := "c1"; client_name := "Ann";
     date := "2024-01-01"; slot_number := "09:00";
     payment_status := "Unpaid"; total_fee := 50%Z; status := "Booked";
     comment := ""; timestamp := "t1" |}.

Definition cy_appointment : Appointment Z :=
  {| app_id := "c"; client_id := "c3"; client_name := "Cy";
     date := "2024-01-03"; slot_number := "09:30";
     payment_status := "Unpaid"; total_fee := 50%Z; status := "Booked";
     comment := ""; timestamp := "t3" |}.

(** The two clients as [register_client] built them. *)
Definition ann_client : Client :=
  (register_client empty ann_info "c1" "t0").1.

Definition bob_client : Client :=
  (register_client ann_registered bob_info "c2" "t1").1.

(** A store whose clients file held a client without an id, after Ann. *)
Definition with_stray_client : Store Z :=
  set_clients ann_registered
    (clients ann_registered ++ [{["name" := PStr "Stray"]}]).



(** Bob's id is changed to Ann's, and a dict that renames. *)
Definition same_ids : Store Z :=
  (update_client two_clients "c2" {["id" := PStr "c1"]}).2.

Definition x_info : Client := {["name" := PStr "X"]}.

End Scenario.

(** * Properties *)

Section Properties.

#[local] Set Default Proof Using "Type".

Context {num : Type}.
Context (num_zero : num) (num_add : num → num → num).
Context (strptime : string → option Z).

Implicit Types (st : Store num) (app : Appointment num).

(** ** Slots *)

Lemma elem_of_booked_slot_labels st date_str slot :
  slot ∈ booked_slot_labels st date_str ↔
  ∃ app, app ∈ appointments st ∧ occupies date_str app ∧ slot_number app = slot.
Proof.
  unfold booked_slot_labels. rewrite list_elem_of_fmap. split.
  - intros (app & -> & Hin). apply list_elem_of_filter in Hin as [Hocc Hin]. eauto.
  - intros (app & Hin & Hocc & <-). exists app. split; [done|].
    apply list_elem_of_filter. done.
Qed.

Lemma elem_of_get_available_slots st date_str slot :
  slot ∈ get_available_slots st date_str ↔
  slot ∈ time_slots (settings st) ∧ slot ∉ booked_slot_labels st date_str.
Proof.
  unfold get_available_slots. cbv zeta. rewrite list_elem_of_filter.
  split; intros [??]; done.
Qed.

(** ** Booking *)

(** C1: [make_appointment] on a slot that is not available returns a failure
    and leaves the store as it was; on an available slot it succeeds and
    appends one appointment, [Booked], [Unpaid], with the current session
    fee, after the appointments that were there, which it leaves as they
    were. *)
Theorem make_appointment_spec st date_str cid cname slot cmt uuid4 now :
  let r := make_appointment st date_str cid cname slot cmt uuid4 now in
  (slot ∉ get_available_slots st date_str →
     r.1.1 = false ∧ r.2 = st) ∧
  (slot ∈ get_available_slots st date_str →
     r.1.1 = true ∧
     ∃ new,
       appointments r.2 = (appointments st ++ [new])%list ∧
       status new = "Booked" ∧
       payment_status new = "Unpaid" ∧
       total_fee new = get_session_fee st ∧
       date new = date_str ∧
       slot_number new = slot ∧
       client_id new = cid ∧
       client_name new = cname ∧
       comment new = cmt ∧
       clients r.2 = clients st ∧
       settings r.2 = settings st).
Proof.
  cbv zeta. unfold make_appointment. split; intros Hslot.
  - rewrite decide_True by done. done.
  - rewrite decide_False by (intros Hn; by apply Hn).
    split; [done|]. eexists. cbn. repeat split.
Qed.

(** C6: after [make_appointment] has booked a slot on a date, the slot is
    not in [get_available_slots] of that date. *)
Theorem booked_slot_not_available st date_str cid cname slot cmt uuid4 now :
  let r := make_appointment st date_str cid cname slot cmt uuid4 now in
  r.1.1 = true →
  slot ∉ get_available_slots r.2 date_str.
Proof.
  cbv zeta. unfold make_appointment.
  destruct (decide (slot ∉ get_available_slots st date_str)) as [|Hav]; [done|].
  intros _. cbn. rewrite elem_of_get_available_slots. intros [_ Hfree].
  apply Hfree. apply elem_of_booked_slot_labels. cbn.
  eexists. split; [apply elem_of_app; right; apply list_elem_of_singleton; done|].
  cbn. split; [|done]. split; [done|]. discriminate.
Qed.

(** [make_appointment] keeps the slots singly occupied. *)
Lemma make_appointment_one_per_slot st date_str cid cname slot cmt uuid4 now :
  one_appointment_per_slot st →
  one_appointment_per_slot
    (make_appointment st date_str cid cname slot cmt uuid4 now).2.
Proof.
  intros Hinv. unfold make_appointment.
  destruct (decide (slot ∉ get_available_slots st date_str)) as [|Hav]; [done|].
  assert (Hfree : slot ∉ booked_slot_labels st date_str).
  { destruct (decide (slot ∈ get_available_slots st date_str)) as [Hin|]; [|done].
    by apply elem_of_get_available_slots in Hin as [_ ?]. }
  assert (Hclash : ∀ k c, appointments st !! k = Some c →
            status c ≠ "Cancelled" → date c = date_str → slot_number c ≠ slot).
  { intros k c Hk Hst Hd Hs. apply Hfree, elem_of_booked_slot_labels.
    exists c. split; [by eapply list_elem_of_lookup_2|]. done. }
  intros i j a b Hi Hj Ha Hb Hd Hs. cbn in Hi, Hj.
  apply lookup_app_Some in Hi as [Hi|[Hil Hi]];
    apply lookup_app_Some in Hj as [Hj|[Hjl Hj]].
  - by eapply Hinv.
  - apply list_lookup_singleton_Some in Hj as [_ <-]. cbn in *.
    by destruct (Hclash i a).
  - apply list_lookup_singleton_Some in Hi as [_ <-]. cbn in *.
    by destruct (Hclash j b).
  - apply list_lookup_singleton_Some in Hi as [Hi _].
    apply list_lookup_singleton_Some in Hj as [Hj _]. lia.
Qed.

(** ** Editing *)

Lemma find_appointment_first st appointment_id i app :
  appointments st !! i = Some app →
  app_id app = appointment_id →
  (∀ j app', appointments st !! j = Some app' → j < i →
     app_id app' ≠ appointment_id) →
  find_appointment st appointment_id = Some (i, app).
Proof.
  intros Hi Hid Hfirst. unfold find_appointment. apply list_find_Some. eauto.
Qed.

Lemma find_appointment_none st appointment_id :
  (∀ app, app ∈ appointments st → app_id app ≠ appointment_id) →
  find_appointment st appointment_id = None.
Proof.
  intros Hno. unfold find_appointment. apply list_find_None, Forall_forall.
  intros app Hin. by apply Hno.
Qed.

(** C3: [edit_appointment] fails when no appointment has the id; for the
    first appointment with the id, it fails when the new slot is neither in
    [get_available_slots] of the new date nor the appointment's own slot
    label, whatever the appointment's date; otherwise it succeeds and puts
    the new date, slot and comment in that appointment, where it stands. *)
Theorem edit_appointment_spec st appointment_id new_date_str new_slot new_comment :
  let r := edit_appointment st appointment_id new_date_str new_slot new_comment in
  ((∀ app, app ∈ appointments st → app_id app ≠ appointment_id) →
     r.1.1 = false ∧ r.2 = st) ∧
  (∀ i app,
     appointments st !! i = Some app →
     app_id app = appointment_id →
     (∀ j app', appointments st !! j = Some app' → j < i →
        app_id app' ≠ appointment_id) →
     ((new_slot ∉ get_available_slots st new_date_str)
      ∧ (new_slot ≠ slot_number app) →
        r.1.1 = false ∧ r.2 = st) ∧
     ((new_slot ∈ get_available_slots st new_date_str)
      ∨ (new_slot = slot_number app) →
        r.1.1 = true ∧
        ∃ app',
          appointments r.2 = <[i := app']> (appointments st) ∧
          date app' = new_date_str ∧
          slot_number app' = new_slot ∧
          comment app' = new_comment ∧
          app_id app' = app_id app ∧
          client_id app' = client_id app ∧
          client_name app' = client_name app ∧
          payment_status app' = payment_status app ∧
          total_fee app' = total_fee app ∧
          status app' = status app ∧
          timestamp app' = timestamp app ∧
          clients r.2 = clients st ∧
          settings r.2 = settings st)).
Proof.
  cbv zeta. unfold edit_appointment. split.
  - intros Hno. by rewrite find_appointment_none.
  - intros i app Hi Hid Hfirst.
    rewrite (find_appointment_first _ _ _ _ Hi Hid Hfirst). split.
    + intros Hbad. by rewrite decide_True.
    + intros Hok. rewrite decide_False by (intros [Hn Hne]; destruct Hok; done).
      split; [done|]. eexists. cbn. repeat split.
Qed.

(** ** Clients *)

(** C9: [delete_client] leaves the list of appointments as it was, whatever
    the client id and whatever clients the appointments name. *)
Theorem delete_client_keeps_appointments st cid :
  appointments (delete_client st cid).2 = appointments st
  ∧ settings (delete_client st cid).2 = settings st.
Proof.
  unfold delete_client. cbv zeta. destruct (clients_without _ _); [|done].
  by case_decide.
Qed.

Lemma find_client_from_first n (cl : list Client) cid i client :
  cl !! i = Some client →
  client !! "id" = Some (PStr cid) →
  (∀ j c, j < i → cl !! j = Some c →
     ∃ v, c !! "id" = Some v ∧ py_eq_str v cid = false) →
  find_client_from n cl cid = Return (Some (n + i, client)).
Proof.
  revert n i. induction cl as [|c cl IH]; intros n i Hi Hid Hfirst; [done|].
  destruct i as [|i]; cbn in *.
  - injection Hi as ->. rewrite Hid. cbn. rewrite bool_decide_eq_true_2 by done.
    by rewrite Nat.add_0_r.
  - destruct (Hfirst 0 c) as (v & -> & ->); [lia|done|].
    rewrite (IH (S n) i); [|done..|].
    + do 3 f_equal. lia.
    + intros j c' Hj Hc'. apply (Hfirst (S j)); [lia|done].
Qed.

(** C10, as the code has it: for the first client of the store whose id is
    [cid], and not for a later client with the same id,
    [update_client] gives every key of [new_info] the value [new_info] has
    for it, the key ['id'] as any other, keeps the client's other keys as
    they were, and leaves the other clients, the appointments and the
    settings as they were. *)
Theorem update_client_spec st cid (new_info : Client) i (client : Client) :
  clients st !! i = Some client →
  client !! "id" = Some (PStr cid) →
  (∀ j c, j < i → clients st !! j = Some c →
     ∃ v, c !! "id" = Some v ∧ py_eq_str v cid = false) →
  let r := update_client st cid new_info in
  r.1 = Return true ∧
  ∃ client' : Client,
    clients r.2 !! i = Some client' ∧
    (∀ k v, new_info !! k = Some v → client' !! k = Some v) ∧
    (∀ v, new_info !! "id" = Some v → client' !! "id" = Some v) ∧
    (∀ k, new_info !! k = None → client' !! k = client !! k) ∧
    (∀ j, j ≠ i → clients r.2 !! j = clients st !! j) ∧
    length (clients r.2) = length (clients st) ∧
    appointments r.2 = appointments st ∧
    settings r.2 = settings st.
Proof.
  intros Hi Hid Hfirst. cbv zeta. unfold update_client, find_client.
  rewrite (find_client_from_first 0 _ _ _ _ Hi Hid Hfirst). cbn.
  split; [done|]. exists (dict_update client new_info).
  assert (Hnew : ∀ k v, new_info !! k = Some v →
            dict_update client new_info !! k = Some v).
  { intros k v Hk. unfold dict_update. by apply lookup_union_Some_l. }
  repeat split.
  - apply list_lookup_insert_eq. by eapply lookup_lt_Some.
  - done.
  - intros v. apply Hnew.
  - intros k Hk. unfold dict_update. by apply lookup_union_r.
  - intros j Hj. by apply list_lookup_insert_ne.
  - apply length_insert.
Qed.

(** ** The daily status advancement *)

Lemma truthy_parsed s d : strptime "" = None → strptime s = Some d → truthy s = true.
Proof. intros Hempty Hs. destruct s; [congruence|done]. Qed.

Lemma daily_step_parsed today today_dt app d :
  strptime "" = None →
  strptime today = Some today_dt →
  strptime (date app) = Some d →
  daily_step strptime today app =
    Return
      (if decide ((d < today_dt)%Z ∧ status app = "Booked")
       then with_status app "Completed"
       else if decide (d = today_dt ∧ status app = "Booked")
            then with_status app "Pending"
            else app).
Proof.
  intros Hempty Htoday Hd. unfold daily_step. cbv zeta.
  rewrite (truthy_parsed _ _ Hempty Hd). cbn.
  destruct (status app) as [|c s] eqn:Hst; cbn.
  - repeat (let Hc := fresh in case_decide as Hc; [by destruct Hc|]). done.
  - rewrite Hd, Htoday. by repeat case_decide.
Qed.

Lemma daily_loop_parsed today today_dt (apps : list (Appointment num)) :
  strptime "" = None →
  strptime today = Some today_dt →
  Forall (λ app, is_Some (strptime (date app))) apps →
  ∃ apps',
    daily_loop strptime today apps = (apps', None) ∧
    Forall2 (λ app app', daily_step strptime today app = Return app') apps apps'.
Proof.
  intros Hempty Htoday. induction 1 as [|app apps [d Hd] _ (apps' & Hloop & IH)].
  - by exists [].
  - cbn. rewrite (daily_step_parsed _ _ _ _ Hempty Htoday Hd), Hloop.
    eexists. split; [done|]. constructor; [|done].
    by rewrite (daily_step_parsed _ _ _ _ Hempty Htoday Hd).
Qed.

(** Where the stored dates are dates, [run_daily_tasks] returns and
    turns each appointment that is [Booked] and dated before today into the
    same appointment with status [Completed], each one that is [Booked] and
    dated today into the same appointment with status [Pending], and leaves
    every other appointment as it was. *)
Theorem run_daily_tasks_spec st today today_dt :
  strptime "" = None →
  strptime today = Some today_dt →
  dates_well_formed strptime st →
  let r := run_daily_tasks strptime st today in
  r.1 = Return () ∧
  clients r.2 = clients st ∧
  settings r.2 = settings st ∧
  Forall2
    (λ app app', ∀ d, strptime (date app) = Some d →
       (status app = "Booked" → (d < today_dt)%Z →
          app' = with_status app "Completed") ∧
       (status app = "Booked" → d = today_dt →
          app' = with_status app "Pending") ∧
       (status app ≠ "Booked" ∨ (today_dt < d)%Z → app' = app))
    (appointments st) (appointments r.2).
Proof.
  intros Hempty Htoday Hwf. cbv zeta. unfold run_daily_tasks.
  destruct (daily_loop_parsed today today_dt _ Hempty Htoday Hwf)
    as (apps' & -> & Hall).
  cbn. repeat split. eapply Forall2_impl; [exact Hall|].
  intros app app' Hstep d Hd. cbv beta in Hstep.
  rewrite (daily_step_parsed _ _ _ _ Hempty Htoday Hd) in Hstep.
  injection Hstep as <-. repeat split.
  - intros Hb Hlt. by rewrite decide_True.
  - intros Hb ->. rewrite decide_False by lia. by rewrite decide_True.
  - intros Hother.
    repeat case_decide; try done; destruct_and!; destruct Hother; first [done|lia].
Qed.

(** ** The financial report *)

Lemma report_loop_parsed start_dt end_dt acc (apps : list (Appointment num)) :
  Forall (λ app, is_Some (strptime (date app))) apps →
  let chosen := filter (in_report strptime start_dt end_dt) apps in
  let add_fee := λ n app, num_add n (total_fee app) in
  report_loop num_add strptime start_dt end_dt acc apps =
    Return
      {| total_revenue := foldl add_fee (total_revenue acc) chosen;
         total_paid :=
           foldl add_fee (total_paid acc)
             (filter (λ app, payment_status app = "Paid") chosen);
         total_unpaid :=
           foldl add_fee (total_unpaid acc)
             (filter (λ app, payment_status app ≠ "Paid") chosen);
         total_bookings := total_bookings acc + length chosen;
         filtered_appointments := filtered_appointments acc ++ chosen |}.
Proof.
  cbv zeta. intros Hwf. revert acc.
  induction Hwf as [|app apps [d Hd] _ IH]; intros acc.
  - cbn. rewrite Nat.add_0_r, app_nil_r. by destruct acc.
  - cbn [report_loop]. unfold report_step. rewrite Hd.
    destruct (decide (((start_dt ≤ d)%Z ∧ (d ≤ end_dt)%Z)
                      ∧ status app ≠ "Cancelled")) as [Hin|Hout].
    + rewrite (filter_cons_True (in_report strptime start_dt end_dt))
        by (unfold in_report; by rewrite Hd).
      rewrite IH.
      cbn [total_revenue total_paid total_unpaid total_bookings
           filtered_appointments].
      destruct (decide (payment_status app = "Paid")) as [Hp|Hp].
      * rewrite bool_decide_eq_true_2 by done.
        rewrite (filter_cons_True (λ a, payment_status a = "Paid")) by done.
        rewrite (filter_cons_False (λ a, payment_status a ≠ "Paid")) by auto.
        cbn [foldl length]. f_equal. f_equal; [lia|by rewrite <- app_assoc].
      * rewrite bool_decide_eq_false_2 by done.
        rewrite (filter_cons_False (λ a, payment_status a = "Paid")) by done.
        rewrite (filter_cons_True (λ a, payment_status a ≠ "Paid")) by done.
        cbn [foldl length]. f_equal. f_equal; [lia|by rewrite <- app_assoc].
    + rewrite (filter_cons_False (in_report strptime start_dt end_dt))
        by (unfold in_report; by rewrite Hd).
      by rewrite IH.
Qed.


(** ** The slots of a date *)

Lemma available_used_disjoint st date_str :
  available_slots st date_str ## used_slots st date_str.
Proof.
  unfold available_slots, used_slots. apply elem_of_disjoint. intros slot.
  rewrite !elem_of_list_to_set, elem_of_get_available_slots.
  intros [_ Hfree] Hused. by apply Hfree.
Qed.

Lemma available_union_used st date_str :
  available_slots st date_str ∪ used_slots st date_str
  = configured_slots st ∪ used_slots st date_str.
Proof.
  unfold available_slots, used_slots, configured_slots. apply set_eq. intros slot.
  rewrite !elem_of_union, !elem_of_list_to_set, elem_of_get_available_slots.
  split.
  - intros [[? _]|?]; [by left|by right].
  - intros [?|?]; [|by right].
    destruct (decide (slot ∈ booked_slot_labels st date_str)); [by right|by left].
Qed.

Lemma slots_configured_used st date_str :
  slots_configured st → used_slots st date_str ⊆ configured_slots st.
Proof.
  unfold slots_configured, used_slots, configured_slots. intros Hinv slot.
  rewrite !elem_of_list_to_set, elem_of_booked_slot_labels.
  intros (app & Hin & _ & <-). rewrite Forall_forall in Hinv. by apply Hinv.
Qed.

(** What the methods on clients leave as it was. *)
Ltac client_frame :=
  repeat case_match; simplify_eq/=; try done.

Lemma delete_client_frame st cid :
  appointments (delete_client st cid).2 = appointments st
  ∧ settings (delete_client st cid).2 = settings st.
Proof. unfold delete_client. client_frame. Qed.

Lemma register_client_frame st client_info uuid4 now :
  appointments (register_client st client_info uuid4 now).2 = appointments st
  ∧ settings (register_client st client_info uuid4 now).2 = settings st.
Proof. done. Qed.

Lemma add_comment_frame st cid cmt now :
  appointments (add_comment st cid cmt now).2 = appointments st
  ∧ settings (add_comment st cid cmt now).2 = settings st.
Proof. unfold add_comment. client_frame. Qed.

Lemma update_client_frame st cid new_info :
  appointments (update_client st cid new_info).2 = appointments st
  ∧ settings (update_client st cid new_info).2 = settings st.
Proof. unfold update_client. client_frame. Qed.

Lemma update_payment_frame st cid amount_2f now :
  appointments (update_payment st cid amount_2f now).2 = appointments st
  ∧ settings (update_payment st cid amount_2f now).2 = settings st.
Proof.
  unfold update_payment.
  destruct (find_client st cid) as [[?|]|]; [|done..].
  pose proof (add_comment_frame st cid
    ("Received payment of $" +:+ (amount_2f +:+ ".")) now) as Hframe.
  by destruct (add_comment _ _ _ _) as [[?|?] ?].
Qed.

Lemma upload_document_to_client_frame st cid filename dest_path now copied err :
  appointments
    (upload_document_to_client st cid filename dest_path now copied err).2
  = appointments st
  ∧ settings
      (upload_document_to_client st cid filename dest_path now copied err).2
    = settings st.
Proof. unfold upload_document_to_client. client_frame. Qed.

Lemma daily_loop_Forall (P : Appointment num → Prop) today apps :
  (∀ app s, P app → P (with_status app s)) →
  Forall P apps →
  Forall P (daily_loop strptime today apps).1.
Proof.
  intros Hstatus. induction 1 as [|app apps Happ Happs IH]; [done|]. cbn.
  unfold daily_step. cbv zeta.
  destruct (daily_loop strptime today apps) as [apps' e]. cbn in IH.
  repeat case_match; simplify_eq/=; constructor; auto.
Qed.

(** A call that is not [set_time_slots] keeps the appointments on configured
    slot labels. *)
Lemma call_slots_configured st st' :
  call strptime st st' → slots_configured st → slots_configured st'.
Proof.
  unfold slots_configured.
  destruct 1 as [st date_str cid cname slot cmt uuid4 now _
    | st appointment_id
    | st appointment_id new_date_str new_slot new_comment
    | st appointment_id new_status
    | st today
    | st fee
    | st client_info uuid4 now _
    | st cid cmt now
    | st cid new_info
    | st cid
    | st cid amount_2f now
    | st cid filename dest_path now copied err]; intros Hinv.
  - unfold make_appointment. case_decide as Hslot; [done|]. cbn.
    apply Forall_app. split; [done|]. constructor; [|done]. cbn.
    destruct (decide (slot ∈ get_available_slots st date_str)) as [Hin|]; [|done].
    by apply elem_of_get_available_slots in Hin as [? _].
  - cbn. rewrite Forall_forall in Hinv. apply Forall_forall. intros app Hin.
    apply list_elem_of_filter in Hin as [_ Hin]. by apply Hinv.
  - unfold edit_appointment.
    destruct (find_appointment st appointment_id) as [[i app]|] eqn:Hfind; [|done].
    apply list_find_Some in Hfind as (Hi & _ & _).
    case_decide as Hslot; [done|]. cbn. apply Forall_insert; [done|]. cbn.
    destruct (decide (new_slot ∈ get_available_slots st new_date_str)) as [Hin|Hnin].
    + by apply elem_of_get_available_slots in Hin as [? _].
    + destruct (decide (new_slot = slot_number app)) as [->|Hne].
      * by eapply (Forall_lookup_1 _ _ _ _ Hinv).
      * by destruct Hslot.
  - unfold update_appointment_payment_status.
    destruct (find_appointment st appointment_id) as [[i app]|] eqn:Hfind; [|done].
    apply list_find_Some in Hfind as (Hi & _ & _). cbn.
    apply Forall_insert; [done|]. cbn.
    by eapply (Forall_lookup_1 _ _ _ _ Hinv).
  - unfold run_daily_tasks.
    pose proof (daily_loop_Forall
      (λ app, slot_number app ∈ time_slots (settings st)) today
      (appointments st) (λ _ _ H, H) Hinv) as Hloop.
    by destruct (daily_loop strptime today (appointments st)) as [apps [e|]].
  - by destruct fee.
  - done.
  - by destruct (add_comment_frame st cid cmt now) as [-> ->].
  - by destruct (update_client_frame st cid new_info) as [-> ->].
  - by destruct (delete_client_frame st cid) as [-> ->].
  - by destruct (update_payment_frame st cid amount_2f now) as [-> ->].
  - by destruct (upload_document_to_client_frame st cid filename dest_path
                   now copied err) as [-> ->].
Qed.

Lemma reachable_keeping_slots_configured st :
  reachable_keeping_slots strptime st → slots_configured st.
Proof.
  intros [s Hrtc]. revert st Hrtc. apply rtc_ind_r.
  - by apply Forall_nil.
  - intros st st' _ Hcall Hinv. by eapply call_slots_configured.
Qed.

(** C5, as the code has it: on every date of every store the available
    labels and the labels in use are disjoint, and together they are the
    configured labels and the labels in use; in a store reached from an
    empty one without a call of [set_time_slots], the labels in use are
    configured, and the two sets split the configured labels. *)
Theorem slots_partitioned_keeping_slots st date_str :
  (available_slots st date_str ## used_slots st date_str
   ∧ available_slots st date_str ∪ used_slots st date_str
     = configured_slots st ∪ used_slots st date_str)
  ∧ (reachable_keeping_slots strptime st → slots_partitioned st date_str).
Proof.
  split; [split|].
  - apply available_used_disjoint.
  - apply available_union_used.
  - intros Hreach. split; [apply available_used_disjoint|].
    rewrite available_union_used.
    rewrite (comm_L (∪)). apply subseteq_union_1_L.
    by apply slots_configured_used, reachable_keeping_slots_configured.
Qed.

Lemma reachable_keeping_slots_reachable st :
  reachable_keeping_slots strptime st → reachable strptime st.
Proof.
  intros [s Hrtc]. exists s. eapply rtc_subrel; [|exact Hrtc].
  intros ? ?. apply step_call.
Qed.

End Properties.

(** * Further properties of the store *)

Section Further.

#[local] Set Default Proof Using "Type".

Context {num : Type}.
Context (num_zero : num) (num_add : num → num → num).
Context (strptime : string → option Z).
Context (lower : string → string).
Context (num_str : num → string).

Implicit Types (st : Store num) (app : Appointment num).
Implicit Types (apps : list (Appointment num)).

(** The fields of a store an operation has built. *)
Ltac store_fields :=
  cbn [fst snd appointments settings clients
       set_appointments set_settings set_clients] in *.

(** ** One appointment per slot, as a list without repetition *)

Lemma elem_of_occupied apps (k : string * string) :
  k ∈ occupied apps ↔
  ∃ app, app ∈ apps ∧ status app ≠ "Cancelled" ∧ (date app, slot_number app) = k.
Proof.
  unfold occupied. rewrite list_elem_of_fmap. split.
  - intros (app & -> & Hin). apply list_elem_of_filter in Hin as [? ?]. eauto.
  - intros (app & Hin & Hst & <-). exists app. split; [done|].
    by apply list_elem_of_filter.
Qed.

Lemma occupied_cons app apps :
  occupied (app :: apps) =
    if decide (status app ≠ "Cancelled")
    then (date app, slot_number app) :: occupied apps
    else occupied apps.
Proof. unfold occupied. rewrite filter_cons. by case_decide. Qed.

Lemma one_appointment_per_slot_occupied st :
  one_appointment_per_slot st ↔ NoDup (occupied (appointments st)).
Proof.
  unfold one_appointment_per_slot. generalize (appointments st) as apps.
  induction apps as [|app apps IH].
  - split; [intros _; constructor|]. intros _ i j a b Hi. by destruct i.
  - rewrite occupied_cons. split.
    + intros Hone.
      assert (Htail : NoDup (occupied apps)).
      { apply IH. intros i j a b Hi Hj Ha Hb Hd Hs.
        assert (S i = S j) as [= ->]; [|done]. by eapply (Hone (S i) (S j)). }
      case_decide as Hst; [|done]. apply NoDup_cons. split; [|done].
      intros (b & Hin & Hb & [= Hd Hs])%elem_of_occupied.
      apply list_elem_of_lookup_1 in Hin as [j Hj].
      assert (S j = 0) as [=]. by eapply (Hone (S j) 0 b app).
    + intros Hnodup i j a b Hi Hj Ha Hb Hd Hs.
      assert (Htail : NoDup (occupied apps)).
      { case_decide; [by apply NoDup_cons in Hnodup as [_ ?]|done]. }
      destruct i as [|i], j as [|j]; simplify_eq/=.
      * done.
      * rewrite decide_True in Hnodup by done.
        apply NoDup_cons in Hnodup as [Hfresh _]. destruct Hfresh.
        apply elem_of_occupied. exists b.
        split; [by eapply list_elem_of_lookup_2|]. split; [done|].
        by rewrite Hd, Hs.
      * rewrite decide_True in Hnodup by done.
        apply NoDup_cons in Hnodup as [Hfresh _]. destruct Hfresh.
        apply elem_of_occupied. exists a.
        split; [by eapply list_elem_of_lookup_2|]. split; [done|].
        by rewrite Hd, Hs.
      * f_equal. by eapply (proj2 IH Htail i j a b).
Qed.

(** Replacing an appointment by one with the same date, slot label and
    status leaves the occupied slots as they were. *)
Lemma occupied_insert_same apps i app app' :
  apps !! i = Some app →
  date app' = date app →
  slot_number app' = slot_number app →
  (status app' ≠ "Cancelled" ↔ status app ≠ "Cancelled") →
  occupied (<[i := app']> apps) = occupied apps.
Proof.
  revert i. induction apps as [|a apps IH]; intros i Hi Hd Hs Hst; [done|].
  destruct i as [|i]; simplify_eq/=.
  - rewrite !occupied_cons, Hd, Hs.
    destruct (decide (status app' ≠ "Cancelled")) as [H1|H1],
      (decide (status app ≠ "Cancelled")) as [H2|H2]; try done.
    + destruct (H2 (proj1 Hst H1)).
    + destruct (H1 (proj2 Hst H2)).
  - rewrite !occupied_cons, (IH i) by done. done.
Qed.

Lemma occupied_filter (P : Appointment num → Prop) `{!∀ app, Decision (P app)}
    apps :
  occupied (filter P apps) `sublist_of` occupied apps.
Proof.
  unfold occupied. apply fmap_sublist.
  rewrite list_filter_filter.
  rewrite (list_filter_iff _ (λ app, P app ∧ status app ≠ "Cancelled"))
    by (intros ?; split; intros [??]; done).
  rewrite <- list_filter_filter. apply sublist_filter.
Qed.

Lemma daily_step_occupied today app app' :
  daily_step strptime today app = Return app' →
  date app' = date app ∧ slot_number app' = slot_number app
  ∧ app_id app' = app_id app
  ∧ (status app' ≠ "Cancelled" ↔ status app ≠ "Cancelled").
Proof.
  unfold daily_step. cbv zeta. intros Hstep.
  repeat case_match; simplify_eq/=; try done;
    destruct_and?; repeat split; try done; intros _; congruence.
Qed.

Lemma daily_loop_occupied today apps :
  occupied (daily_loop strptime today apps).1 = occupied apps
  ∧ app_id <$> (daily_loop strptime today apps).1 = app_id <$> apps.
Proof.
  induction apps as [|app apps [IH1 IH2]]; [done|]. cbn [daily_loop].
  destruct (daily_step strptime today app) as [app'|e] eqn:Hstep; [|done].
  apply daily_step_occupied in Hstep as (Hd & Hs & Hid & Hst).
  destruct (daily_loop strptime today apps) as [apps' r].
  cbn [fst] in *. rewrite !fmap_cons.
  rewrite !occupied_cons, Hd, Hs, IH1, IH2, Hid.
  split; [|done].
  destruct (decide (status app' ≠ "Cancelled")) as [H1|H1],
    (decide (status app ≠ "Cancelled")) as [H2|H2]; try done.
  - destruct (H2 (proj1 Hst H1)).
  - destruct (H1 (proj2 Hst H2)).
Qed.

(** ** What is available *)


(** X2. A slot label that is not configured is refused: booking it fails
    with the message of the method and leaves the store as it was, and so
    does editing an appointment to it, unless it is the appointment's own
    label.  With no time slot configured every booking fails. *)
Theorem unconfigured_slot_refused st slot :
  slot ∉ time_slots (settings st) →
  (∀ date_str cid cname cmt uuid4 now,
     make_appointment st date_str cid cname slot cmt uuid4 now
     = ((false, "Slot " +:+ (slot +:+ " is not available for this date.")), st))
  ∧ (∀ appointment_id new_date_str new_comment,
       (∀ app, app ∈ appointments st → app_id app = appointment_id →
          slot_number app ≠ slot) →
       (edit_appointment st appointment_id new_date_str slot new_comment).1.1
       = false
       ∧ (edit_appointment st appointment_id new_date_str slot new_comment).2
         = st).
Proof.
  intros Hslot.
  assert (Hnav : ∀ date_str, slot ∉ get_available_slots st date_str).
  { intros date_str. rewrite elem_of_get_available_slots. by intros [? _]. }
  split.
  - intros. unfold make_appointment. by rewrite decide_True.
  - intros appointment_id new_date_str new_comment Hown. unfold edit_appointment.
    destruct (find_appointment st appointment_id) as [[i app]|] eqn:Hfind;
      [|done].
    apply list_find_Some in Hfind as (Hi & Hid & _).
    rewrite decide_True; [done|]. split; [done|].
    intros ->. by eapply Hown; [eapply list_elem_of_lookup_2|..].
Qed.

(** ** One appointment per slot *)

(** X3. Every method that changes the appointments or the settings, other
    than [edit_appointment], keeps at most one appointment that is not
    cancelled per date and slot label. *)
Theorem one_appointment_per_slot_kept st :
  one_appointment_per_slot st →
  (∀ date_str cid cname slot cmt uuid4 now,
     one_appointment_per_slot
       (make_appointment st date_str cid cname slot cmt uuid4 now).2)
  ∧ (∀ appointment_id,
       one_appointment_per_slot (delete_appointment st appointment_id).2)
  ∧ (∀ appointment_id new_status,
       one_appointment_per_slot
         (update_appointment_payment_status st appointment_id new_status).2)
  ∧ (∀ today, one_appointment_per_slot (run_daily_tasks strptime st today).2)
  ∧ (∀ new_slots, one_appointment_per_slot (set_time_slots st new_slots).2)
  ∧ (∀ fee, one_appointment_per_slot (update_session_fee st fee).2).
Proof.
  intros Hone. split; [|split; [|split; [|split; [|split]]]].
  - intros. by apply make_appointment_one_per_slot.
  - intros appointment_id. apply one_appointment_per_slot_occupied.
    unfold delete_appointment. store_fields.
    eapply sublist_NoDup; [|apply occupied_filter].
    by apply one_appointment_per_slot_occupied.
  - intros appointment_id new_status.
    unfold update_appointment_payment_status.
    destruct (find_appointment st appointment_id) as [[i app]|] eqn:Hfind;
      [|done].
    apply list_find_Some in Hfind as (Hi & _ & _).
    apply one_appointment_per_slot_occupied. store_fields.
    rewrite (occupied_insert_same _ _ app) by done.
    by apply one_appointment_per_slot_occupied.
  - intros today. apply one_appointment_per_slot_occupied.
    unfold run_daily_tasks.
    pose proof (daily_loop_occupied today (appointments st)) as [Hocc _].
    destruct (daily_loop strptime today (appointments st)) as [apps [e|]];
      store_fields; rewrite Hocc; by apply one_appointment_per_slot_occupied.
  - done.
  - by intros [fee|].
Qed.

(** X4. [edit_appointment] keeps at most one appointment per date and slot
    label when the new slot is available on the new date, and when no
    appointment with the id changes its date. *)
Theorem edit_appointment_keeps_one_per_slot st appointment_id new_date_str
    new_slot new_comment :
  one_appointment_per_slot st →
  (new_slot ∈ get_available_slots st new_date_str)
  ∨ (∀ app, app ∈ appointments st → app_id app = appointment_id →
       date app = new_date_str) →
  one_appointment_per_slot
    (edit_appointment st appointment_id new_date_str new_slot new_comment).2.
Proof.
  intros Hone Hcase. unfold edit_appointment.
  destruct (find_appointment st appointment_id) as [[i app]|] eqn:Hfind;
    [|done].
  apply list_find_Some in Hfind as (Hi & Hid & _).
  case_decide as Hslot; [done|]. store_fields.
  destruct (decide (new_slot ∈ get_available_slots st new_date_str))
    as [Hav|Hnav].
  - apply elem_of_get_available_slots in Hav as [_ Hfree].
    assert (Hclash : ∀ k c, appointments st !! k = Some c →
              status c ≠ "Cancelled" → date c = new_date_str →
              slot_number c ≠ new_slot).
    { intros k c Hk Hst Hd Hs. apply Hfree, elem_of_booked_slot_labels.
      exists c. split; [by eapply list_elem_of_lookup_2|]. done. }
    intros p q x y Hp Hq Hx Hy Hd Hs. store_fields.
    apply list_lookup_insert_Some in Hp as [(<- & <- & _)|[Hpi Hp]];
      apply list_lookup_insert_Some in Hq as [(<- & <- & _)|[Hqi Hq]];
      cbn in *.
    + done.
    + by destruct (Hclash q y).
    + by destruct (Hclash p x).
    + by eapply Hone.
  - destruct Hcase as [?|Hdate]; [done|].
    assert (new_slot = slot_number app) as ->.
    { destruct (decide (new_slot = slot_number app)); [done|]. by destruct Hslot. }
    apply one_appointment_per_slot_occupied. store_fields.
    rewrite (occupied_insert_same _ _ app); [|done|cbn|done..].
    + by apply one_appointment_per_slot_occupied.
    + symmetry. apply Hdate; [by eapply list_elem_of_lookup_2|done].
Qed.

(** X5. Editing the first appointment with an id to the date and slot of an
    appointment that is not cancelled fails and leaves the store as it was,
    when the two slot labels differ. *)
Theorem edit_onto_other_label_fails st appointment_id new_comment i app other :
  appointments st !! i = Some app →
  app_id app = appointment_id →
  (∀ j app', appointments st !! j = Some app' → j < i →
     app_id app' ≠ appointment_id) →
  other ∈ appointments st →
  status other ≠ "Cancelled" →
  slot_number other ≠ slot_number app →
  edit_appointment st appointment_id (date other) (slot_number other) new_comment
  = ((false, "Slot " +:+ (slot_number other +:+ (" is not available on "
               +:+ (date other +:+ ".")))), st).
Proof.
  intros Hi Hid Hfirst Hin Hst Hne. unfold edit_appointment.
  rewrite (find_appointment_first _ _ _ _ Hi Hid Hfirst).
  rewrite decide_True; [done|]. split; [|done].
  rewrite elem_of_get_available_slots. intros [_ Hfree]. apply Hfree.
  apply elem_of_booked_slot_labels. by exists other.
Qed.

(** ** Deleting an appointment *)

Lemma filter_all {A} (P : A → Prop) `{!∀ x, Decision (P x)} (l : list A) :
  Forall P l → filter P l = l.
Proof.
  induction 1 as [|x l Hx _ IH]; [done|]. by rewrite filter_cons_True, IH.
Qed.

(** X6. [delete_appointment] returns [True], removes every appointment with
    the id and keeps the others in their order; with an id that no
    appointment has, the store is as it was. *)
Theorem delete_appointment_spec st appointment_id :
  let r := delete_appointment st appointment_id in
  r.1 = true
  ∧ appointments r.2 `sublist_of` appointments st
  ∧ (∀ app, app ∈ appointments r.2 ↔
            app ∈ appointments st ∧ app_id app ≠ appointment_id)
  ∧ ((∀ app, app ∈ appointments st → app_id app ≠ appointment_id) → r.2 = st)
  ∧ clients r.2 = clients st
  ∧ settings r.2 = settings st.
Proof.
  cbv zeta. cbn. split; [done|]. split; [apply sublist_filter|]. split.
  - intros app. rewrite list_elem_of_filter. split; intros [??]; done.
  - split; [|done]. intros Hno. unfold delete_appointment. cbn.
    rewrite filter_all by by apply Forall_forall. by destruct st.
Qed.

(** X7. Where slots are singly occupied, deleting an appointment that is not
    cancelled makes its slot label, if configured, available on its date. *)
Theorem delete_appointment_frees_slot st app :
  one_appointment_per_slot st →
  app ∈ appointments st →
  status app ≠ "Cancelled" →
  slot_number app ∈ time_slots (settings st) →
  slot_number app ∈
    get_available_slots (delete_appointment st (app_id app)).2 (date app).
Proof.
  intros Hone Hin Hst Hconf. apply elem_of_get_available_slots.
  split; [done|]. rewrite elem_of_booked_slot_labels.
  intros (b & Hb & [Hd Hbst] & Hs). cbn in Hb.
  apply list_elem_of_filter in Hb as [Hid Hb].
  apply list_elem_of_lookup_1 in Hin as [i Hi].
  apply list_elem_of_lookup_1 in Hb as [j Hj].
  assert (i = j) as -> by by eapply (Hone i j app b).
  by simplify_eq.
Qed.

(** ** Counting the slots of a date *)

Lemma booked_slot_labels_occupied st date_str :
  booked_slot_labels st date_str
  = snd <$> filter (λ k, k.1 = date_str) (occupied (appointments st)).
Proof.
  unfold booked_slot_labels, occupied.
  induction (appointments st) as [|app apps IH]; [done|].
  rewrite (filter_cons (occupies date_str)),
    (filter_cons (λ app, status app ≠ "Cancelled")).
  destruct (decide (occupies date_str app)) as [[Hd Hst]|Hocc].
  - rewrite decide_True by done. rewrite !fmap_cons.
    rewrite filter_cons_True by done. rewrite fmap_cons. cbn [snd].
    by rewrite IH.
  - destruct (decide (status app ≠ "Cancelled")) as [Hst|Hst]; [|done].
    rewrite fmap_cons, filter_cons_False; [done|].
    cbn. intros Hd. by apply Hocc.
Qed.

Lemma get_booked_slots_labels st date_str :
  get_booked_slots st date_str = length (booked_slot_labels st date_str).
Proof. unfold get_booked_slots, booked_slot_labels. by rewrite length_fmap. Qed.

(** Stores with the same settings and the same occupied slots have the same
    available and booked slots. *)
Lemma same_occupied_same_slots st st' date_str :
  settings st' = settings st →
  occupied (appointments st') = occupied (appointments st) →
  get_available_slots st' date_str = get_available_slots st date_str
  ∧ get_booked_slots st' date_str = get_booked_slots st date_str.
Proof.
  intros Hset Hocc. rewrite !get_booked_slots_labels.
  unfold get_available_slots. cbv zeta.
  by rewrite !booked_slot_labels_occupied, Hset, Hocc.
Qed.

Lemma NoDup_fmap_eq {A B} (f : A → B) (l : list A) x y :
  NoDup (f <$> l) → x ∈ l → y ∈ l → f x = f y → x = y.
Proof.
  induction l as [|z l IH]; [by intros _ ?%elem_of_nil|].
  rewrite fmap_cons, NoDup_cons, !elem_of_cons.
  intros [Hz Hl] [->|Hx] [->|Hy] Hf; [done|..].
  - destruct Hz. rewrite Hf. by apply list_elem_of_fmap_2.
  - destruct Hz. rewrite <- Hf. by apply list_elem_of_fmap_2.
  - by apply IH.
Qed.

Lemma booked_slot_labels_NoDup st date_str :
  one_appointment_per_slot st → NoDup (booked_slot_labels st date_str).
Proof.
  intros Hone%one_appointment_per_slot_occupied.
  rewrite booked_slot_labels_occupied.
  apply NoDup_fmap_2_strong; [|by apply NoDup_filter].
  intros [d1 s1] [d2 s2] [H1 _]%list_elem_of_filter [H2 _]%list_elem_of_filter.
  cbn in *. congruence.
Qed.

(** X8. Where the configured labels are distinct, slots are singly occupied
    and every appointment is on a configured label, the available slots and
    the booked slots of a date add up to the configured ones. *)
Theorem available_plus_booked st date_str :
  NoDup (time_slots (settings st)) →
  one_appointment_per_slot st →
  slots_configured st →
  length (get_available_slots st date_str) + get_booked_slots st date_str
  = get_total_slots_global st.
Proof.
  intros Hslots Hone Hconf.
  rewrite get_booked_slots_labels. unfold get_total_slots_global.
  unfold get_available_slots. cbv zeta.
  set (booked := booked_slot_labels st date_str).
  set (slots := time_slots (settings st)) in *.
  rewrite <- (Permutation_length
    (filter_app_complement (λ slot, slot ∉ booked) slots)).
  rewrite length_app. f_equal. symmetry. apply Permutation_length.
  apply NoDup_Permutation; [by apply NoDup_filter|
                            by apply booked_slot_labels_NoDup|].
  intros slot. rewrite list_elem_of_filter. split.
  - intros [Hin _]. by destruct (decide (slot ∈ booked)).
  - intros Hin. split; [by intros Hn; apply Hn|].
    apply elem_of_booked_slot_labels in Hin as (app & Happ & _ & <-).
    unfold slots_configured in Hconf. rewrite Forall_forall in Hconf.
    by apply Hconf.
Qed.

(** ** Appointment ids *)

Lemma call_ids_unique st st' :
  call strptime st st' → ids_unique st → ids_unique st'.
Proof.
  unfold ids_unique.
  destruct 1 as [st date_str cid cname slot cmt uuid4 now Hfresh
    | st appointment_id
    | st appointment_id new_date_str new_slot new_comment
    | st appointment_id new_status
    | st today
    | st fee
    | st client_info uuid4 now _
    | st cid cmt now
    | st cid new_info
    | st cid
    | st cid amount_2f now
    | st cid filename dest_path now copied err]; intros Hinv.
  - unfold make_appointment. case_decide; [done|]. store_fields.
    rewrite fmap_app. apply NoDup_app. split; [done|]. split.
    + intros i (app & -> & Hin)%list_elem_of_fmap [=]%list_elem_of_singleton.
      by eapply Hfresh.
    + apply NoDup_singleton.
  - unfold delete_appointment. store_fields.
    eapply sublist_NoDup; [exact Hinv|]. apply fmap_sublist, sublist_filter.
  - unfold edit_appointment.
    destruct (find_appointment st appointment_id) as [[i app]|] eqn:Hfind;
      [|done].
    apply list_find_Some in Hfind as (Hi & _ & _).
    case_decide; [done|]. store_fields.
    rewrite list_fmap_insert. cbn [edited app_id].
    rewrite list_insert_id; [done|]. by rewrite list_lookup_fmap, Hi.
  - unfold update_appointment_payment_status.
    destruct (find_appointment st appointment_id) as [[i app]|] eqn:Hfind;
      [|done].
    apply list_find_Some in Hfind as (Hi & _ & _). store_fields.
    rewrite list_fmap_insert. cbn [with_payment_status app_id].
    rewrite list_insert_id; [done|]. by rewrite list_lookup_fmap, Hi.
  - unfold run_daily_tasks.
    pose proof (daily_loop_occupied today (appointments st)) as [_ Hids].
    destruct (daily_loop strptime today (appointments st)) as [apps [e|]];
      store_fields; by rewrite Hids.
  - by destruct fee.
  - done.
  - by destruct (add_comment_frame st cid cmt now) as [-> _].
  - by destruct (update_client_frame st cid new_info) as [-> _].
  - by destruct (delete_client_frame st cid) as [-> _].
  - by destruct (update_payment_frame st cid amount_2f now) as [-> _].
  - by destruct (upload_document_to_client_frame st cid filename dest_path
                   now copied err) as [-> _].
Qed.

(** X9. In every store reached from an empty one, no two appointments have
    the same id, so that an id names one appointment at most. *)
Theorem reachable_ids_unique st :
  reachable strptime st →
  ids_unique st
  ∧ ∀ i j a b, appointments st !! i = Some a → appointments st !! j = Some b →
               app_id a = app_id b → i = j.
Proof.
  intros [s Hrtc].
  assert (Hids : ids_unique st).
  { revert st Hrtc. apply rtc_ind_r; [apply NoDup_nil_2|].
    intros st st' _ Hstep Hinv. destruct Hstep as [st st' Hcall|st new_slots].
    - by eapply call_ids_unique.
    - done. }
  split; [done|]. intros i j a b Hi Hj Hid.
  eapply NoDup_lookup; [exact Hids|..].
  - by rewrite list_lookup_fmap, Hi.
  - by rewrite list_lookup_fmap, Hj, Hid.
Qed.

(** ** Payment and the daily pass *)

(** X10. [update_appointment_payment_status] returns [False] and leaves the
    store as it was when no appointment has the id; otherwise it returns
    [True] and gives the first appointment with the id the new payment
    status, nothing else changing. *)
Theorem update_appointment_payment_status_spec st appointment_id new_status :
  let r := update_appointment_payment_status st appointment_id new_status in
  ((∀ app, app ∈ appointments st → app_id app ≠ appointment_id) →
     r = (false, st))
  ∧ (∀ i app,
       appointments st !! i = Some app →
       app_id app = appointment_id →
       (∀ j app', appointments st !! j = Some app' → j < i →
          app_id app' ≠ appointment_id) →
       r.1 = true ∧
       ∃ app',
         appointments r.2 = <[i := app']> (appointments st) ∧
         payment_status app' = new_status ∧
         app_id app' = app_id app ∧
         client_id app' = client_id app ∧
         client_name app' = client_name app ∧
         date app' = date app ∧
         slot_number app' = slot_number app ∧
         total_fee app' = total_fee app ∧
         status app' = status app ∧
         comment app' = comment app ∧
         timestamp app' = timestamp app ∧
         clients r.2 = clients st ∧
         settings r.2 = settings st).
Proof.
  cbv zeta. unfold update_appointment_payment_status. split.
  - intros Hno. by rewrite find_appointment_none.
  - intros i app Hi Hid Hfirst.
    rewrite (find_appointment_first _ _ _ _ Hi Hid Hfirst).
    split; [done|]. eexists. cbn. repeat split.
Qed.

(** X11. Neither a payment update nor the daily pass, whatever its outcome,
    changes the slots that are available or the number of booked slots of
    any date. *)
Theorem payment_and_daily_keep_slots st date_str :
  (∀ appointment_id new_status,
     let st' := (update_appointment_payment_status st appointment_id
                   new_status).2 in
     get_available_slots st' date_str = get_available_slots st date_str
     ∧ get_booked_slots st' date_str = get_booked_slots st date_str)
  ∧ (∀ today,
       let st' := (run_daily_tasks strptime st today).2 in
       get_available_slots st' date_str = get_available_slots st date_str
       ∧ get_booked_slots st' date_str = get_booked_slots st date_str).
Proof.
  split.
  - intros appointment_id new_status. cbv zeta.
    unfold update_appointment_payment_status.
    destruct (find_appointment st appointment_id) as [[i app]|] eqn:Hfind;
      [|done].
    apply list_find_Some in Hfind as (Hi & _ & _).
    apply same_occupied_same_slots; [done|]. store_fields.
    by rewrite (occupied_insert_same _ _ app).
  - intros today. cbv zeta. unfold run_daily_tasks.
    pose proof (daily_loop_occupied today (appointments st)) as [Hocc _].
    destruct (daily_loop strptime today (appointments st)) as [apps [e|]];
      store_fields; by apply same_occupied_same_slots.
Qed.

Lemma daily_step_twice today app app' :
  daily_step strptime today app = Return app' →
  daily_step strptime today app' = Return app'.
Proof.
  unfold daily_step. cbv zeta. intros Hstep.
  destruct (truthy (date app) && truthy (status app)) eqn:Htruthy;
    [|simplify_eq; by rewrite Htruthy].
  destruct (strptime (date app)) as [d|] eqn:Hd; [|done].
  destruct (strptime today) as [t|] eqn:Ht; [|done].
  apply andb_prop in Htruthy as [Hdate Hstatus].
  destruct (decide ((d < t)%Z ∧ status app = "Booked")) as [Hc|Hc];
    [|destruct (decide (d = t ∧ status app = "Booked")) as [Hp|Hp]];
    injection Hstep as <-.
  - cbn [with_status date status]. rewrite Hdate, Hd. cbn.
    rewrite !decide_False by (by intros [_ ?]). done.
  - cbn [with_status date status]. rewrite Hdate, Hd. cbn.
    rewrite !decide_False by (by intros [_ ?]). done.
  - rewrite Hdate, Hstatus, Hd. cbn. by rewrite !decide_False.
Qed.

Lemma daily_loop_twice today apps :
  daily_loop strptime today (daily_loop strptime today apps).1
  = daily_loop strptime today apps.
Proof.
  induction apps as [|app apps IH]; [done|]. cbn [daily_loop].
  destruct (daily_step strptime today app) as [app'|e] eqn:Hstep.
  - destruct (daily_loop strptime today apps) as [apps' r] eqn:Hloop.
    cbn [fst] in *. cbn [daily_loop].
    by rewrite (daily_step_twice _ _ _ Hstep), IH.
  - cbn [fst daily_loop]. rewrite Hstep. done.
Qed.

(** X12. Running the daily pass again on the same day changes nothing: the
    second run has the outcome of the first and leaves the store the first
    left. *)
Theorem run_daily_tasks_twice st today :
  run_daily_tasks strptime (run_daily_tasks strptime st today).2 today
  = run_daily_tasks strptime st today.
Proof.
  unfold run_daily_tasks at 2 3.
  pose proof (daily_loop_twice today (appointments st)) as Htwice.
  destruct (daily_loop strptime today (appointments st)) as [apps r] eqn:Hloop.
  cbn [fst] in Htwice.
  destruct r as [e|]; unfold run_daily_tasks; store_fields; by rewrite Htwice.
Qed.

Lemma daily_step_raises today today_dt app :
  strptime today = Some today_dt →
  (∃ app', daily_step strptime today app = Return app' ∧ ¬ stops_daily strptime app)
  ∨ (daily_step strptime today app = Raise ValueError ∧ stops_daily strptime app).
Proof.
  intros Htoday. unfold daily_step, stops_daily. cbv zeta. rewrite Htoday.
  destruct (truthy (date app)), (truthy (status app)); cbn;
    try (left; eexists; split; [done|]; by intros (? & ? & ?)).
  destruct (strptime (date app)) as [d|]; [|by right].
  left. repeat case_decide; eexists; (split; [done|]); by intros (? & ? & ?).
Qed.

(** X13. When today's date is a date, the daily pass raises [ValueError]
    exactly when some appointment with a date and a status that are not
    empty has a date that is not a date; it then leaves the first such
    appointment and all that follow it as they were. *)
Theorem run_daily_tasks_raises_iff st today today_dt :
  strptime today = Some today_dt →
  let r := run_daily_tasks strptime st today in
  (r.1 = Return () ∨ r.1 = Raise ValueError)
  ∧ (r.1 = Raise ValueError ↔ Exists (stops_daily strptime) (appointments st))
  ∧ (∀ before app after,
       appointments st = (before ++ app :: after)%list →
       Forall (λ a, ¬ stops_daily strptime a) before →
       stops_daily strptime app →
       ∃ before',
         length before' = length before
         ∧ appointments r.2 = (before' ++ app :: after)%list).
Proof.
  intros Htoday. cbv zeta. unfold run_daily_tasks.
  assert (Hloop : ∀ apps,
    ((daily_loop strptime today apps).2 = None
     ∧ ¬ Exists (stops_daily strptime) apps)
    ∨ ((daily_loop strptime today apps).2 = Some ValueError
       ∧ Exists (stops_daily strptime) apps)).
  { induction apps as [|app apps IH]; [left; split; [done|by intros ?%Exists_nil]|].
    cbn [daily_loop].
    destruct (daily_step_raises today today_dt app Htoday)
      as [(app' & -> & Hok)|[-> Hstop]].
    - destruct (daily_loop strptime today apps) as [apps' r]. cbn [snd] in *.
      destruct IH as [[-> Hno]|[-> Hex]]; [left|right]; (split; [done|]).
      + intros [?|?]%Exists_cons; done.
      + by apply Exists_cons_tl.
    - right. split; [done|]. by apply Exists_cons_hd. }
  split; [|split].
  - destruct (Hloop (appointments st)) as [[Hr _]|[Hr _]];
      destruct (daily_loop strptime today (appointments st)) as [apps r];
      cbn in Hr; subst r; auto.
  - destruct (Hloop (appointments st)) as [[Hr Hno]|[Hr Hex]];
      destruct (daily_loop strptime today (appointments st)) as [apps r];
      cbn in Hr; subst r; cbn; split; done.
  - intros before app after -> Hbefore Hstop.
    assert (Hsplit : ∃ before', length before' = length before ∧
              (daily_loop strptime today (before ++ app :: after)).1
              = (before' ++ app :: after)%list).
    { clear Hloop. induction Hbefore as [|a before Ha _ IH].
      - exists []. split; [done|]. cbn [Datatypes.app daily_loop].
        destruct (daily_step_raises today today_dt app Htoday)
          as [(app' & _ & Hok)|[-> _]]; done.
      - destruct IH as (before' & Hlen & Heq).
        cbn [Datatypes.app daily_loop].
        destruct (daily_step_raises today today_dt a Htoday)
          as [(a' & -> & _)|[_ Hbad]]; [|done].
        destruct (daily_loop strptime today (before ++ app :: after))
          as [apps' r]. cbn [fst] in *. subst apps'.
        exists (a' :: before'). split; [cbn; by rewrite Hlen|done]. }
    destruct Hsplit as (before' & Hlen & Heq). exists before'.
    split; [done|].
    destruct (daily_loop strptime today (before ++ app :: after)) as [apps [e|]];
      store_fields; done.
Qed.



(** ** The report *)

Lemma report_loop_raises start_dt end_dt acc apps :
  Exists (λ app, strptime (date app) = None) apps →
  report_loop num_add strptime start_dt end_dt acc apps = Raise ValueError.
Proof.
  intros Hex. revert acc. induction Hex as [app apps Hbad|app apps _ IH];
    intros acc; cbn [report_loop]; unfold report_step.
  - by rewrite Hbad.
  - destruct (strptime (date app)); [|done]. by case_decide.
Qed.

Lemma not_well_formed_Exists apps :
  ¬ Forall (λ app, is_Some (strptime (date app))) apps ↔
  Exists (λ app, strptime (date app) = None) apps.
Proof.
  rewrite <- Exists_Forall_neg.
  - apply Exists_proper; [|done]. intros app.
    by rewrite <- eq_None_not_Some.
  - intros app. destruct (strptime (date app)); [left; by eexists|right].
    by intros [??].
Qed.

(** X14. [get_report_data] returns [None] exactly when one of the two
    strings is not a date, and raises [ValueError] exactly when both are
    dates and the date of some stored appointment is not. *)
Theorem get_report_data_outcome st start_date_str end_date_str :
  let r := get_report_data num_zero num_add strptime st
             start_date_str end_date_str in
  (r = Return None ↔
     strptime start_date_str = None ∨ strptime end_date_str = None)
  ∧ (r = Raise ValueError ↔
       is_Some (strptime start_date_str) ∧ is_Some (strptime end_date_str)
       ∧ Exists (λ app, strptime (date app) = None) (appointments st))
  ∧ (∀ e, r = Raise e → e = ValueError).
Proof.
  cbv zeta. unfold get_report_data.
  destruct (strptime start_date_str) as [start_dt|];
    [|split; [|split]; [split; auto|split; [done|by intros ([??] & _)]|done]].
  destruct (strptime end_date_str) as [end_dt|];
    [|split; [|split]; [split; auto|split; [done|by intros (_ & [??] & _)]|done]].
  destruct (decide (Forall (λ app, is_Some (strptime (date app)))
                      (appointments st))) as [Hwf|Hbad].
  - rewrite (report_loop_parsed num_add strptime _ _ _ _ Hwf). cbv zeta.
    split; [|split].
    + split; [done|]. by intros [?|?].
    + split; [done|]. intros (_ & _ & Hex).
      by apply not_well_formed_Exists in Hex.
    + done.
  - apply not_well_formed_Exists in Hbad.
    rewrite (report_loop_raises _ _ _ _ Hbad). split; [|split].
    + split; [done|]. by intros [?|?].
    + split; [|done]. intros _. split; [by eexists|]. split; [by eexists|done].
    + by intros e [= <-].
Qed.

Lemma filter_none {A} (P : A → Prop) `{!∀ x, Decision (P x)} (l : list A) :
  Forall (λ x, ¬ P x) l → filter P l = [].
Proof.
  induction 1 as [|x l Hx _ IH]; [done|]. by rewrite filter_cons_False.
Qed.

(** X15. Over a range whose start is after its end, and in a store with no
    appointment, the report is empty: no appointment, no booking and the
    totals at zero. *)
Theorem get_report_data_empty st start_date_str end_date_str start_dt end_dt :
  strptime start_date_str = Some start_dt →
  strptime end_date_str = Some end_dt →
  dates_well_formed strptime st →
  (end_dt < start_dt)%Z ∨ appointments st = [] →
  get_report_data num_zero num_add strptime st start_date_str end_date_str
  = Return (Some {| total_revenue := num_zero; total_paid := num_zero;
                    total_unpaid := num_zero; total_bookings := 0;
                    filtered_appointments := [] |}).
Proof.
  intros Hstart Hend Hwf Hcase. unfold get_report_data.
  rewrite Hstart, Hend, (report_loop_parsed num_add strptime _ _ _ _ Hwf).
  cbv zeta.
  rewrite (filter_none (in_report strptime start_dt end_dt)); [reflexivity|].
  destruct Hcase as [Hlt| ->]; [|constructor].
  apply Forall_forall. intros app _. unfold in_report.
  destruct (strptime (date app)); [|by intros []]. intros [[??] _]. lia.
Qed.

(** ** The session fee *)

(** X17. [update_session_fee] returns [False] and changes nothing when the
    fee is not a number; otherwise it changes the fee of the settings and
    of no appointment, and the next booking that succeeds takes the new
    fee. *)
Theorem update_session_fee_spec st :
  update_session_fee st None = (false, st)
  ∧ ∀ fee,
      let st1 := (update_session_fee st (Some fee)).2 in
      (update_session_fee st (Some fee)).1 = true
      ∧ get_session_fee st1 = fee
      ∧ appointments st1 = appointments st
      ∧ clients st1 = clients st
      ∧ time_slots (settings st1) = time_slots (settings st)
      ∧ ∀ date_str cid cname slot cmt uuid4 now,
          slot ∈ get_available_slots st date_str →
          ∃ new,
            appointments
              (make_appointment st1 date_str cid cname slot cmt uuid4 now).2
            = (appointments st ++ [new])%list
            ∧ total_fee new = fee.
Proof.
  split; [done|]. intros fee. cbv zeta. repeat split.
  intros date_str cid cname slot cmt uuid4 now Hslot.
  unfold make_appointment.
  rewrite decide_False by (intros Hn; by apply Hn).
  eexists. by repeat split.
Qed.

(** ** Looking a client up *)

Lemma py_eq_str_true v cid : py_eq_str v cid = true ↔ v = PStr cid.
Proof.
  destruct v; cbn; try (split; intros; discriminate).
  rewrite bool_decide_eq_true. split; [by intros ->|by intros [= ->]].
Qed.

Lemma py_eq_str_false v cid : py_eq_str v cid = false ↔ v ≠ PStr cid.
Proof.
  rewrite <- py_eq_str_true. destruct (py_eq_str v cid); split; done.
Qed.

(** What [find_client_from] returns, where every client has an id. *)
Lemma find_client_from_spec n (cl : list Client) cid :
  Forall (λ client : Client, is_Some (client !! "id")) cl →
  (find_client_from n cl cid = Return None
   ∧ Forall (λ client : Client, client !! "id" ≠ Some (PStr cid)) cl)
  ∨ (∃ i client,
       find_client_from n cl cid = Return (Some (n + i, client))
       ∧ cl !! i = Some client
       ∧ client !! "id" = Some (PStr cid)
       ∧ ∀ j c, j < i → cl !! j = Some c → c !! "id" ≠ Some (PStr cid)).
Proof.
  intros Hids. revert n. induction Hids as [|client cl [v Hv] _ IH]; intros n.
  - left. by split.
  - cbn [find_client_from]. rewrite Hv.
    destruct (py_eq_str v cid) eqn:Heq.
    + apply py_eq_str_true in Heq as ->. right. exists 0, client.
      rewrite Nat.add_0_r. repeat split; [done|]. intros j c Hj. lia.
    + apply py_eq_str_false in Heq.
      assert (Hne : client !! "id" ≠ Some (PStr cid)) by congruence.
      destruct (IH (S n)) as [[-> Hno]|(i & c & -> & Hi & Hid & Hfirst)].
      * left. split; [done|]. by constructor.
      * right. exists (S i), c. repeat split; [do 3 f_equal; lia|done..|].
        intros [|j] c' Hj Hc'; simplify_eq/=; [done|].
        apply (Hfirst j); [lia|done].
Qed.

Lemma find_client_from_raises n (cl : list Client) cid e :
  find_client_from n cl cid = Raise e →
  e = KeyError ∧ Exists (λ client : Client, client !! "id" = None) cl.
Proof.
  revert n. induction cl as [|client cl IH]; intros n; [done|].
  cbn [find_client_from]. destruct (client !! "id") as [v|] eqn:Hv.
  - destruct (py_eq_str v cid); [done|]. intros [-> ?]%IH.
    split; [done|]. by apply Exists_cons_tl.
  - intros [= <-]. split; [done|]. by apply Exists_cons_hd.
Qed.

Lemma find_client_from_found n (cl : list Client) cid k client :
  find_client_from n cl cid = Return (Some (k, client)) →
  ∃ i, k = n + i ∧ cl !! i = Some client
       ∧ client !! "id" = Some (PStr cid).
Proof.
  revert n. induction cl as [|c cl IH]; intros n; [done|].
  cbn [find_client_from]. destruct (c !! "id") as [v|] eqn:Hv; [|done].
  destruct (py_eq_str v cid) eqn:Heq.
  - intros [= <- <-]. exists 0. apply py_eq_str_true in Heq as ->.
    by rewrite Nat.add_0_r.
  - intros (i & -> & Hi & Hid)%IH. exists (S i). split; [lia|done].
Qed.

Lemma clients_without_spec (cl : list Client) cid :
  Forall (λ client : Client, is_Some (client !! "id")) cl →
  clients_without cl cid
  = Return (filter (λ client : Client, ¬ has_id cid client) cl).
Proof.
  induction 1 as [|client cl [v Hv] _ IH]; [done|].
  cbn [clients_without]. rewrite Hv, IH. rewrite filter_cons.
  destruct (py_eq_str v cid) eqn:Heq.
  - apply py_eq_str_true in Heq as ->.
    by rewrite decide_False by (by intros Hn; apply Hn).
  - apply py_eq_str_false in Heq.
    rewrite decide_True by (unfold has_id; congruence). done.
Qed.

Lemma clients_without_raises (cl : list Client) cid :
  Exists (λ client : Client, client !! "id" = None) cl →
  clients_without cl cid = Raise KeyError.
Proof.
  induction 1 as [client cl Hbad|client cl _ IH]; cbn [clients_without].
  - by rewrite Hbad.
  - destruct (client !! "id"); [|done]. by rewrite IH.
Qed.

(** X18. [register_client] appends a client with the new id, the four
    fields of [client_info] (or [None] for a missing one) and empty lists of
    comments and documents; where the id is fresh and every client has an
    id, [get_client_by_id] then finds it by that id and finds the clients
    that were there as before. *)
Theorem register_client_lookup st (client_info : Client) uuid4 now :
  clients_have_ids st →
  (∀ client : Client, client ∈ clients st → client !! "id" ≠ Some (PStr uuid4)) →
  let r := register_client st client_info uuid4 now in
  clients r.2 = (clients st ++ [r.1])%list
  ∧ r.1 !! "id" = Some (PStr uuid4)
  ∧ r.1 !! "registration_date" = Some (PStr now)
  ∧ (∀ key, key ∈ ["name"; "dob"; "email"; "cellphone"] →
       r.1 !! key = Some (default PNone (client_info !! key)))
  ∧ r.1 !! "comments" = Some (PList [])
  ∧ r.1 !! "documents" = Some (PList [])
  ∧ get_client_by_id r.2 uuid4 = Return (Some r.1)
  ∧ (∀ cid, cid ≠ uuid4 → get_client_by_id r.2 cid = get_client_by_id st cid)
  ∧ appointments r.2 = appointments st
  ∧ settings r.2 = settings st.
Proof.
  intros Hids Hfresh. cbv zeta.
  set (new := (register_client st client_info uuid4 now).1).
  assert (Hnew_id : new !! "id" = Some (PStr uuid4)) by done.
  assert (Hfind : ∀ (cl : list Client) n cid,
    find_client_from n (cl ++ [new]) cid =
      match find_client_from n cl cid with
      | Return None =>
          if bool_decide (uuid4 = cid)
          then Return (Some (n + length cl, new))
          else Return None
      | other => other
      end).
  { intros cl n cid. revert n.
    induction cl as [|c cl IH]; intros n.
    - cbn [Datatypes.app find_client_from length].
      rewrite Hnew_id, Nat.add_0_r. cbn [py_eq_str]. by case_bool_decide.
    - cbn [Datatypes.app find_client_from length].
      destruct (c !! "id") as [v|]; [|done].
      destruct (py_eq_str v cid); [done|]. rewrite IH.
      replace (S n + length cl) with (n + S (length cl)) by lia. done. }
  split; [done|]. split; [done|]. split; [done|]. split.
  { intros key Hkey. rewrite !elem_of_cons, elem_of_nil in Hkey.
    destruct Hkey as [->|[->|[->|[->|[]]]]]; done. }
  split; [done|]. split; [done|]. split; [|split; [|done]].
  - unfold get_client_by_id, find_client.
    change (clients (register_client st client_info uuid4 now).2)
      with (clients st ++ [new])%list.
    rewrite Hfind.
    destruct (find_client_from_spec 0 (clients st) uuid4 Hids)
      as [[-> _]|(i & c & _ & Hi & Hid & _)].
    + by rewrite bool_decide_eq_true_2.
    + destruct (Hfresh c); [by eapply list_elem_of_lookup_2|done].
  - intros cid Hne. unfold get_client_by_id, find_client.
    change (clients (register_client st client_info uuid4 now).2)
      with (clients st ++ [new])%list.
    rewrite Hfind. destruct (find_client_from 0 (clients st) cid) as [[?|]|];
      [done| |done].
    by rewrite bool_decide_eq_false_2.
Qed.

(** X19. [delete_client], where every client has an id: it returns [True]
    when some client has the id and [False] otherwise, keeps the other
    clients in their order, and [get_client_by_id] then finds no client
    with the id. *)
Theorem delete_client_spec st cid :
  clients_have_ids st →
  let r := delete_client st cid in
  clients r.2 = filter (λ client : Client, ¬ has_id cid client) (clients st)
  ∧ (r.1 = Return true ↔
       ∃ client : Client, client ∈ clients st ∧ has_id cid client)
  ∧ (r.1 = Return true ∨ r.1 = Return false)
  ∧ (r.1 = Return false → r.2 = st)
  ∧ get_client_by_id r.2 cid = Return None.
Proof.
  intros Hids. cbv zeta. unfold delete_client. cbv zeta.
  rewrite (clients_without_spec _ _ Hids).
  set (kept := filter (λ client : Client, ¬ has_id cid client) (clients st)).
  assert (Hlen : length kept < length (clients st) ↔
            ∃ client : Client, client ∈ clients st ∧ has_id cid client).
  { split.
    - intros Hlt. destruct (decide (Forall
        (λ client : Client, ¬ has_id cid client) (clients st)))
        as [Hall|Hex].
      + unfold kept in Hlt. rewrite filter_all in Hlt by done. lia.
      + apply not_Forall_Exists in Hex; [|apply _].
        apply Exists_exists in Hex as (client & Hin & Hid).
        exists client. split; [done|].
        by destruct (decide (has_id cid client)).
    - intros (client & Hin & Hid).
      apply (length_filter_lt _ _ client); [done|]. by intros Hn. }
  assert (Hgone : get_client_by_id (set_clients st kept) cid = Return None).
  { unfold get_client_by_id, find_client. store_fields.
    assert (Hkept : Forall (λ client : Client, is_Some (client !! "id")) kept).
    { unfold clients_have_ids in Hids. rewrite Forall_forall in Hids.
      apply Forall_forall. intros c [_ Hc]%list_elem_of_filter. by apply Hids. }
    destruct (find_client_from_spec 0 kept cid Hkept)
      as [[-> _]|(i & c & _ & Hi & Hid & _)]; [done|].
    apply list_elem_of_lookup_2, list_elem_of_filter in Hi as [Hne _]. done. }
  case_decide as Hlt; store_fields.
  - split; [done|]. split; [split; [by intros _; apply Hlen|done]|].
    split; [by left|]. split; [done|]. exact Hgone.
  - split; [done|]. split; [split; [done|by intros ?%Hlen]|].
    split; [by right|]. split; [|exact Hgone].
    intros _. unfold kept. rewrite filter_all; [by destruct st|].
    apply Forall_forall. intros client Hin Hid. apply Hlt, Hlen. eauto.
Qed.

(** X20. A client without the key ['id'] makes [delete_client] raise
    [KeyError], whatever the id, and the store stays as it was. *)
Theorem delete_client_missing_id st cid :
  Exists (λ client : Client, client !! "id" = None) (clients st) →
  delete_client st cid = (Raise KeyError, st).
Proof.
  intros Hbad. unfold delete_client. cbv zeta.
  by rewrite (clients_without_raises _ _ Hbad).
Qed.

Lemma find_client_first st cid i (client : Client) :
  clients_have_ids st →
  clients st !! i = Some client →
  has_id cid client →
  (∀ j c, j < i → clients st !! j = Some c → ¬ has_id cid c) →
  find_client st cid = Return (Some (i, client)).
Proof.
  intros Hids Hi Hid Hfirst. unfold find_client.
  rewrite (find_client_from_first 0 _ cid i client); [done..|].
  intros j c Hj Hc.
  destruct (Forall_lookup_1 _ _ _ _ Hids Hc) as [v Hv]. exists v.
  split; [done|]. apply py_eq_str_false. intros ->. by apply (Hfirst j c).
Qed.

Lemma find_client_none st cid :
  clients_have_ids st →
  (∀ client : Client, client ∈ clients st → ¬ has_id cid client) →
  find_client st cid = Return None.
Proof.
  intros Hids Hno. unfold find_client.
  destruct (find_client_from_spec 0 (clients st) cid Hids)
    as [[-> _]|(i & c & _ & Hi & Hid & _)]; [done|].
  destruct (Hno c); [by eapply list_elem_of_lookup_2|done].
Qed.

(** ** Comments, payments and documents *)

(** X21. [add_comment], where every client has an id: with an id that no
    client has it returns [False] and changes nothing; for the first client
    with the id it appends the comment with its time after the comments
    that are there and returns [True]; it raises [KeyError] when that client
    has no ['comments'] and [AttributeError] when its ['comments'] is not a
    list, and then changes nothing. *)
Theorem add_comment_spec st cid cmt now :
  clients_have_ids st →
  let r := add_comment st cid cmt now in
  ((∀ client : Client, client ∈ clients st → ¬ has_id cid client) →
     r = (Return false, st))
  ∧ (∀ i (client : Client),
       clients st !! i = Some client →
       has_id cid client →
       (∀ j c, j < i → clients st !! j = Some c → ¬ has_id cid c) →
       (∀ comments,
          client !! "comments" = Some (PList comments) →
          r.1 = Return true
          ∧ clients r.2
            = <[i := <["comments" :=
                        PList (comments ++
                                 [PDict [("timestamp", PStr now);
                                         ("text", PStr cmt)]])]> client]>
                (clients st)
          ∧ appointments r.2 = appointments st
          ∧ settings r.2 = settings st)
       ∧ (client !! "comments" = None → r = (Raise KeyError, st))
       ∧ (∀ v, client !! "comments" = Some v → (∀ l, v ≠ PList l) →
            r = (Raise AttributeError, st))).
Proof.
  intros Hids. cbv zeta. unfold add_comment. split.
  - intros Hno. by rewrite find_client_none.
  - intros i client Hi Hid Hfirst.
    rewrite (find_client_first _ _ _ _ Hids Hi Hid Hfirst). unfold dict_append.
    split; [|split].
    + intros comments ->. done.
    + by intros ->.
    + intros v -> Hv. destruct v as [| |l|]; [done..| |done]. by destruct (Hv l).
Qed.

Lemma update_payment_is_add_comment_store st cid amount_2f now :
  (update_payment st cid amount_2f now).2
  = (add_comment st cid ("Received payment of $" +:+ (amount_2f +:+ ".")) now).2.
Proof.
  unfold update_payment, add_comment.
  destruct (find_client st cid) as [[[i client]|]|e]; [|done..].
  by destruct (dict_append _ _ _).
Qed.

(** X22. [update_payment] is [add_comment] with the text of the receipt:
    the same result and the same store, whatever the store. *)
Theorem update_payment_is_add_comment st cid amount_2f now :
  update_payment st cid amount_2f now
  = add_comment st cid ("Received payment of $" +:+ (amount_2f +:+ ".")) now.
Proof.
  unfold update_payment, add_comment.
  destruct (find_client st cid) as [[[i client]|]|e]; [|done..].
  by destruct (dict_append _ _ _).
Qed.

(** X23. [upload_document_to_client], where every client has an id: with
    an id that no client has, or when the copy fails, it returns [False]
    and changes nothing; when the copy succeeds it appends the document to
    the documents of the first client with the id, starting a list when the
    client has none, and returns [True]. *)
Theorem upload_document_to_client_spec st cid filename dest_path now copied err :
  clients_have_ids st →
  let r := upload_document_to_client st cid filename dest_path now copied err in
  let document := PDict [("filename", PStr filename); ("path", PStr dest_path);
                         ("timestamp", PStr now)] in
  ((∀ client : Client, client ∈ clients st → ¬ has_id cid client) →
     r = (Return (false, "Client not found."), st))
  ∧ (∀ i (client : Client),
       clients st !! i = Some client →
       has_id cid client →
       (∀ j c, j < i → clients st !! j = Some c → ¬ has_id cid c) →
       (copied = false →
          r = (Return (false, "Error uploading file: " +:+ err), st))
       ∧ (copied = true →
          ∀ documents,
            client !! "documents" = Some (PList documents)
            ∨ (client !! "documents" = None ∧ documents = []) →
            r = (Return (true, "File '" +:+ (filename
                                  +:+ "' uploaded successfully.")),
                 set_clients st
                   (<[i := <["documents" := PList (documents ++ [document])]>
                             client]> (clients st))))
       ∧ (copied = true →
          ∀ v, client !! "documents" = Some v → (∀ l, v ≠ PList l) →
               r = (Return (false, "Error uploading file: " +:+ err), st))).
Proof.
  intros Hids. cbv zeta. unfold upload_document_to_client. split.
  - intros Hno. by rewrite find_client_none.
  - intros i client Hi Hid Hfirst.
    rewrite (find_client_first _ _ _ _ Hids Hi Hid Hfirst). unfold dict_append.
    split; [by intros ->|]. split.
    + intros -> documents [Hdocs|[Hdocs ->]]; rewrite Hdocs.
      * by rewrite Hdocs.
      * rewrite lookup_insert_eq. by rewrite insert_insert_eq.
    + intros -> v Hv Hnot. rewrite Hv, Hv.
      destruct v as [| |l|]; [done..| |done]. by destruct (Hnot l).
Qed.

(** X24. [update_client] with an id that no client has returns [False] and
    changes nothing, where every client has an id; and with an empty dict it
    leaves every store as it was. *)
Theorem update_client_no_change st cid :
  (clients_have_ids st →
   (∀ client : Client, client ∈ clients st → ¬ has_id cid client) →
   ∀ new_info, update_client st cid new_info = (Return false, st))
  ∧ (update_client st cid ∅).2 = st.
Proof.
  split.
  - intros Hids Hno new_info. unfold update_client.
    by rewrite find_client_none.
  - unfold update_client.
    destruct (find_client st cid) as [[[i client]|]|e] eqn:Hfind; [|done..].
    apply find_client_from_found in Hfind as (k & -> & Hk & _).
    store_fields. unfold dict_update, set_clients.
    rewrite (left_id_L ∅ (∪)), list_insert_id by done. by destruct st.
Qed.

(** ** Clients of a reachable store *)

Lemma dict_append_keeps_id (client client' : Client) key item :
  dict_append client key item = Return client' →
  is_Some (client !! "id") → is_Some (client' !! "id").
Proof.
  unfold dict_append. intros Happ Hid.
  destruct (client !! key) as [[| |l|]|]; simplify_eq.
  apply lookup_insert_is_Some'. by right.
Qed.

Lemma call_clients_have_ids st st' :
  call strptime st st' → clients_have_ids st → clients_have_ids st'.
Proof.
  unfold clients_have_ids.
  destruct 1 as [st date_str cid cname slot cmt uuid4 now _
    | st appointment_id
    | st appointment_id new_date_str new_slot new_comment
    | st appointment_id new_status
    | st today
    | st fee
    | st client_info uuid4 now _
    | st cid cmt now
    | st cid new_info
    | st cid
    | st cid amount_2f now
    | st cid filename dest_path now copied err]; intros Hinv.
  - unfold make_appointment. by case_decide.
  - done.
  - unfold edit_appointment. by repeat case_match.
  - unfold update_appointment_payment_status. by repeat case_match.
  - unfold run_daily_tasks. by repeat case_match.
  - by destruct fee.
  - unfold register_client. store_fields. apply Forall_app. split; [done|].
    constructor; [|done]. by rewrite lookup_insert_eq.
  - unfold add_comment.
    destruct (find_client st cid) as [[[i client]|]|e] eqn:Hfind; [|done..].
    destruct (dict_append _ _ _) as [client'|e] eqn:Happ; [|done].
    apply find_client_from_found in Hfind as (k & -> & Hk & _).
    store_fields. apply Forall_insert; [done|].
    eapply dict_append_keeps_id; [done|].
    by eapply (Forall_lookup_1 _ _ _ _ Hinv).
  - unfold update_client.
    destruct (find_client st cid) as [[[i client]|]|e] eqn:Hfind; [|done..].
    apply find_client_from_found in Hfind as (k & -> & Hk & _).
    store_fields. apply Forall_insert; [done|].
    unfold dict_update. apply lookup_union_is_Some. right.
    by eapply (Forall_lookup_1 _ _ _ _ Hinv).
  - unfold delete_client. cbv zeta. rewrite (clients_without_spec _ _ Hinv).
    assert (Forall (λ client : Client, is_Some (client !! "id"))
              (filter (λ client : Client, ¬ has_id cid client) (clients st))).
    { rewrite Forall_forall in Hinv. apply Forall_forall.
      intros c [_ Hc]%list_elem_of_filter. by apply Hinv. }
    by case_decide.
  - rewrite update_payment_is_add_comment_store. unfold add_comment.
    destruct (find_client st cid) as [[[i client]|]|e] eqn:Hfind; [|done..].
    destruct (dict_append _ _ _) as [client'|e] eqn:Happ; [|done].
    apply find_client_from_found in Hfind as (k & -> & Hk & _).
    store_fields. apply Forall_insert; [done|].
    eapply dict_append_keeps_id; [done|].
    by eapply (Forall_lookup_1 _ _ _ _ Hinv).
  - unfold upload_document_to_client.
    destruct (find_client st cid) as [[[i client]|]|e] eqn:Hfind; [|done..].
    destruct copied; [|done].
    destruct (dict_append _ _ _) as [client'|e] eqn:Happ; [|done].
    apply find_client_from_found in Hfind as (k & -> & Hk & _).
    store_fields. apply Forall_insert; [done|].
    eapply dict_append_keeps_id; [done|].
    pose proof (Forall_lookup_1 _ _ _ _ Hinv Hk) as Hid.
    destruct (client !! "documents"); [done|].
    apply lookup_insert_is_Some'. by right.
Qed.

(** X25. In every store reached from an empty one every client has the key
    ['id'], so that looking a client up, deleting one and updating one do
    not raise. *)
Theorem reachable_clients_have_ids st :
  reachable strptime st →
  clients_have_ids st
  ∧ ∀ cid,
      (∃ found, get_client_by_id st cid = Return found)
      ∧ (∃ deleted, (delete_client st cid).1 = Return deleted)
      ∧ (∀ new_info, ∃ updated, (update_client st cid new_info).1 = Return updated).
Proof.
  intros [s Hrtc].
  assert (Hids : clients_have_ids st).
  { revert st Hrtc. apply rtc_ind_r; [by apply Forall_nil|].
    intros st st' _ Hstep Hinv. destruct Hstep as [st st' Hcall|st new_slots].
    - by eapply call_clients_have_ids.
    - done. }
  split; [done|]. intros cid.
  assert (Hfind : ∃ found, find_client st cid = Return found).
  { unfold find_client.
    destruct (find_client_from_spec 0 (clients st) cid Hids)
      as [[-> _]|(i & c & -> & _)]; eauto. }
  destruct Hfind as [found Hfind]. split; [|split].
  - unfold get_client_by_id. rewrite Hfind. destruct found as [[??]|]; eauto.
  - unfold delete_client. cbv zeta. rewrite (clients_without_spec _ _ Hids).
    case_decide; eauto.
  - intros new_info. unfold update_client. rewrite Hfind.
    destruct found as [[??]|]; eauto.
Qed.

(** ** Searching the clients *)

Lemma clients_matching_spec query (cl l : list Client) :
  clients_matching lower query cl = Return l →
  l `sublist_of` cl
  ∧ ∀ client : Client,
      client ∈ l ↔ client ∈ cl ∧ client_matches lower query client = Return true.
Proof.
  revert l. induction cl as [|c cl IH]; intros l; cbn [clients_matching].
  - intros [= <-]. split; [done|]. intros client. split; [by intros ?%elem_of_nil|].
    by intros [?%elem_of_nil _].
  - destruct (client_matches lower query c) as [keep|e] eqn:Hc; [|done].
    destruct (clients_matching lower query cl) as [l'|e]; [|done].
    destruct (IH l' eq_refl) as [Hsub Hin]. intros [= <-].
    destruct keep.
    + split; [by apply sublist_skip|]. intros client.
      rewrite !elem_of_cons, Hin. split.
      * intros [->|[??]]; [by split; [left|]|by split; [right|]].
      * intros [[->|?] ?]; [by left|by right].
    + split; [by apply sublist_cons|]. intros client.
      rewrite elem_of_cons, Hin. split.
      * intros [??]. by split; [right|].
      * intros [[->|?] ?]; [congruence|done].
Qed.

Lemma clients_matching_raises query (cl : list Client) e :
  clients_matching lower query cl = Raise e →
  e = AttributeError
  ∧ Exists (λ client : Client,
              client_matches lower query client = Raise AttributeError) cl.
Proof.
  induction cl as [|c cl IH]; cbn [clients_matching]; [done|].
  destruct (client_matches lower query c) as [keep|e'] eqn:Hc.
  - destruct (clients_matching lower query cl) as [l'|e'']; [done|].
    intros [= <-]. destruct (IH eq_refl) as [-> Hex].
    split; [done|]. by apply Exists_cons_tl.
  - intros [= <-].
    assert (e' = AttributeError) as ->.
    { unfold client_matches, lower_field in Hc.
      repeat case_match; simplify_eq; done. }
    split; [done|]. by apply Exists_cons_hd.
Qed.

Lemma lower_field_text (client : Client) key text :
  lower_field lower client key = Return text ↔
  ∃ s, text = lower s
       ∧ (client !! key = Some (PStr s) ∨ (client !! key = None ∧ s = "")).
Proof.
  unfold lower_field.
  destruct (client !! key) as [[| s | |]|];
    (split; [intros Hret|intros (s' & Htext & [Hs|[Hs Hempty]])]);
    simplify_eq; try done.
  - exists s. split; [done|by left].
  - exists "". split; [done|by right].
Qed.

(** X26. When [get_client_by_name_or_email] returns, it returns, in the
    order of the store, exactly the clients whose name, lowered, contains
    the lowered query, or whose email does, a missing name or email counting
    as the empty string; when it raises, it raises [AttributeError], because
    a name or an email it looked at is not a string. *)
Theorem get_client_by_name_or_email_spec st query :
  let r := get_client_by_name_or_email lower st query in
  let field_is (client : Client) key s :=
    client !! key = Some (PStr s) ∨ (client !! key = None ∧ s = "") in
  (∀ found,
     r = Return found →
     found `sublist_of` clients st
     ∧ ∀ client : Client,
         client ∈ found ↔
         client ∈ clients st
         ∧ ((∃ name, field_is client "name" name
                     ∧ str_contains (lower name) (lower query) = true)
            ∨ (∃ email, field_is client "email" email
                        ∧ str_contains (lower email) (lower query) = true)))
  ∧ (∀ e,
       r = Raise e →
       e = AttributeError
       ∧ ∃ client : Client,
           client ∈ clients st
           ∧ ((∃ v, client !! "name" = Some v ∧ ∀ s, v ≠ PStr s)
              ∨ (∃ v, client !! "email" = Some v ∧ ∀ s, v ≠ PStr s))).
Proof.
  cbv zeta. unfold get_client_by_name_or_email. cbv zeta. split.
  - intros found Hfound.
    assert (Hall : Forall (λ client : Client,
              ∃ keep, client_matches lower (lower query) client = Return keep)
              (clients st)).
    { revert found Hfound. induction (clients st) as [|c cl IH]; intros found;
        [constructor|].
      cbn [clients_matching].
      destruct (client_matches lower (lower query) c) as [keep|e] eqn:Hc;
        [|done].
      destruct (clients_matching lower (lower query) cl) as [l'|e] eqn:Hcl;
        [|done].
      intros _. constructor; [by exists keep|]. by apply (IH l'). }
    apply clients_matching_spec in Hfound as [Hsub Hin].
    split; [done|]. intros client. rewrite Hin. split.
    + intros [Hcl Hmatch]. split; [done|].
      unfold client_matches in Hmatch.
      destruct (lower_field lower client "name") as [name|e] eqn:Hname; [|done].
      apply lower_field_text in Hname as (n & -> & Hn).
      destruct (str_contains (lower n) (lower query)) eqn:Hc; [left; eauto|].
      destruct (lower_field lower client "email") as [email|e] eqn:Hemail;
        [|done].
      apply lower_field_text in Hemail as (m & -> & Hm).
      right. exists m. split; [done|]. by injection Hmatch.
    + intros [Hcl Hfields]. split; [done|].
      rewrite Forall_forall in Hall. destruct (Hall client Hcl) as [keep Hkeep].
      rewrite Hkeep. f_equal. unfold client_matches in Hkeep.
      destruct (lower_field lower client "name") as [name|e] eqn:Hname; [|done].
      apply lower_field_text in Hname as (n & -> & Hn).
      destruct (str_contains (lower n) (lower query)) eqn:Hc;
        [by injection Hkeep|].
      destruct (lower_field lower client "email") as [email|e] eqn:Hemail;
        [|done].
      apply lower_field_text in Hemail as (m & -> & Hm).
      injection Hkeep as <-.
      destruct Hfields as [(n' & Hn' & Hc')|(m' & Hm' & Hc')].
      * assert (n' = n) as -> by (destruct Hn as [?|[??]], Hn' as [?|[??]];
                                  congruence).
        congruence.
      * assert (m' = m) as -> by (destruct Hm as [?|[??]], Hm' as [?|[??]];
                                  congruence).
        done.
  - intros e [-> Hex]%clients_matching_raises. split; [done|].
    apply Exists_exists in Hex as (client & Hin & Hraise).
    exists client. split; [done|].
    unfold client_matches, lower_field in Hraise.
    destruct (client !! "name") as [[| s | |]|] eqn:Hname;
      try (left; eexists; split; [done|]; intros ?; discriminate).
    + right. destruct (str_contains (lower s) (lower query)); [done|].
      destruct (client !! "email") as [[| s' | |]|] eqn:Hemail; try done;
        eexists; split; [done| |done| |done|]; intros ?; discriminate.
    + right. destruct (str_contains (lower "") (lower query)); [done|].
      destruct (client !! "email") as [[| s' | |]|] eqn:Hemail; try done;
        eexists; split; [done| |done| |done|]; intros ?; discriminate.
Qed.

Lemma str_contains_empty s : str_contains s "" = true.
Proof. by destruct s. Qed.

(** X27. The empty query, when lowering it gives the empty string, finds
    every client, provided the name of each is a string or missing. *)
Theorem get_client_by_name_or_email_all st :
  lower "" = "" →
  Forall (λ client : Client,
            client !! "name" = None ∨ ∃ s, client !! "name" = Some (PStr s))
    (clients st) →
  get_client_by_name_or_email lower st "" = Return (clients st).
Proof.
  intros Hlower Hnames. unfold get_client_by_name_or_email. cbv zeta.
  rewrite Hlower. induction Hnames as [|c cl Hc _ IH]; [done|].
  cbn [clients_matching]. rewrite IH.
  unfold client_matches, lower_field.
  destruct Hc as [->|[s ->]]; by rewrite str_contains_empty.
Qed.


(** ** Exporting the report of the day *)

(** X29. [export_daily_report_to_csv]: when today's date is a date and the
    stored dates are dates, it writes nothing and reports that there is no
    data when no appointment that is not cancelled is dated today;
    otherwise it writes the header and one row per such appointment, in the
    order of the store, or reports the error of the write.  When a stored
    date is not a date it raises [ValueError]. *)
Theorem export_daily_report_to_csv_spec st today today_dt write_error :
  strptime today = Some today_dt →
  let r := export_daily_report_to_csv num_zero num_add strptime num_str st
             today write_error in
  let chosen := filter (in_report strptime today_dt today_dt) (appointments st) in
  (Exists (λ app, strptime (date app) = None) (appointments st) →
     r = Raise ValueError)
  ∧ (dates_well_formed strptime st →
       (chosen = [] →
          r = Return ((false, "No data to export for today."), None))
       ∧ (chosen ≠ [] →
          r = match write_error with
              | Some e => Return ((false, "An error occurred: " +:+ e), None)
              | None =>
                  Return ((true, "Report exported successfully."),
                          Some (daily_report_fieldnames
                                  :: (daily_report_row num_str <$> chosen)))
              end)).
Proof.
  intros Htoday. cbv zeta.
  unfold export_daily_report_to_csv, get_report_data. rewrite Htoday. split.
  - intros Hbad. by rewrite (report_loop_raises _ _ _ _ Hbad).
  - intros Hwf. rewrite (report_loop_parsed num_add strptime _ _ _ _ Hwf).
    cbv zeta. cbn [filtered_appointments Datatypes.app].
    destruct (filter (in_report strptime today_dt today_dt) (appointments st))
      as [|app apps]; split; done.
Qed.

End Further.

(** * The properties on concrete stores *)

Import Scenario.

#[local] Abbreviation strptime := Dates.strptime_ymd.

Lemma ann_booked_reachable : reachable_keeping_slots strptime ann_booked.
Proof.
  exists default_settings. apply rtc_once.
  apply (call_make_appointment strptime empty).
  intros app Hin. inversion Hin.
Qed.

Lemma both_booked_reachable : reachable_keeping_slots strptime both_booked.
Proof.
  destruct ann_booked_reachable as [s Hrtc]. exists s.
  eapply rtc_r; [exact Hrtc|].
  apply (call_make_appointment strptime ann_booked).
  intros app Hin. vm_compute in Hin.
  apply list_elem_of_singleton in Hin as ->. discriminate.
Qed.

Lemma ann_moved_reachable : reachable strptime ann_moved.
Proof.
  destruct (reachable_keeping_slots_reachable strptime _ both_booked_reachable)
    as [s Hrtc].
  exists s. eapply rtc_r; [exact Hrtc|].
  apply step_call, call_edit_appointment.
Qed.

Lemma slots_replaced_reachable : reachable strptime slots_replaced.
Proof.
  destruct (reachable_keeping_slots_reachable strptime _ ann_booked_reachable)
    as [s Hrtc].
  exists s. eapply rtc_r; [exact Hrtc|]. apply step_set_time_slots.
Qed.

(** ** Booking *)

(** C1 on concrete stores: 09:00 on 1 January is taken once Ann has booked
    it, and 09:30 is free. *)
Lemma make_appointment_spec_witness :
  ("09:00" ∉ get_available_slots ann_booked "2024-01-01")
  ∧ ("09:30" ∈ get_available_slots ann_booked "2024-01-01")
  ∧ (let r := make_appointment ann_booked "2024-01-01" "c2" "Bob" "09:00" ""
                "b" "t2" in
     r.1.1 = false ∧ r.2 = ann_booked)
  ∧ (let r := make_appointment ann_booked "2024-01-01" "c2" "Bob" "09:30" ""
                "b" "t2" in
     r.1.1 = true ∧
     ∃ new,
       appointments r.2 = (appointments ann_booked ++ [new])%list ∧
       status new = "Booked" ∧
       payment_status new = "Unpaid" ∧
       total_fee new = get_session_fee ann_booked ∧
       date new = "2024-01-01" ∧
       slot_number new = "09:30" ∧
       client_id new = "c2" ∧
       client_name new = "Bob" ∧
       comment new = "" ∧
       clients r.2 = clients ann_booked ∧
       settings r.2 = settings ann_booked).
Proof.
  assert (Htaken : "09:00" ∉ get_available_slots ann_booked "2024-01-01")
    by (apply (bool_decide_unpack _); vm_compute; exact I).
  assert (Hfree : "09:30" ∈ get_available_slots ann_booked "2024-01-01")
    by (apply (bool_decide_unpack _); vm_compute; exact I).
  split; [exact Htaken|]. split; [exact Hfree|]. split.
  - exact (proj1 (make_appointment_spec ann_booked "2024-01-01" "c2" "Bob"
                    "09:00" "" "b" "t2") Htaken).
  - exact (proj2 (make_appointment_spec ann_booked "2024-01-01" "c2" "Bob"
                    "09:30" "" "b" "t2") Hfree).
Defined.

(** C6 on a concrete store: Ann's booking of 09:00 succeeds, and 09:00 is
    then not available on that date. *)
Lemma booked_slot_not_available_witness :
  (make_appointment empty "2024-01-01" "c1" "Ann" "09:00" "" "a" "t1").1.1 = true
  ∧ "09:00" ∉ get_available_slots ann_booked "2024-01-01".
Proof.
  split; [reflexivity|].
  apply (booked_slot_not_available empty "2024-01-01" "c1" "Ann" "09:00" ""
           "a" "t1").
  reflexivity.
Defined.


(** ** Editing *)

(** C3 on a concrete store: no appointment has the id ["z"]; Bob's
    appointment, the second of the store, cannot go to Ann's slot of
    1 January when it comes from another slot label, and can go to 10:00 on
    3 January. *)
Lemma edit_appointment_spec_witness :
  (let r := edit_appointment three_days "z" "2024-01-05" "10:00" "late" in
   r.1.1 = false ∧ r.2 = three_days)
  ∧ (let r := edit_appointment three_days "c" "2024-01-01" "09:00" "early" in
     r.1.1 = false ∧ r.2 = three_days)
  ∧ (let r := edit_appointment three_days "b" "2024-01-03" "10:00" "late" in
     r.1.1 = true ∧
     (date <$> appointments r.2) = ["2024-01-01"; "2024-01-03"; "2024-01-03"] ∧
     (slot_number <$> appointments r.2) = ["09:00"; "10:00"; "09:30"] ∧
     (comment <$> appointments r.2) = [""; "late"; ""]).
Proof.
  assert (Hfirst_c : ∀ j app, appointments three_days !! j = Some app → j < 2 →
                       app_id app ≠ "c").
  { intros j app Hj Hlt.
    destruct j as [|[|j]]; [| |lia]; vm_compute in Hj; injection Hj as <-;
      discriminate. }
  assert (Hfirst_b : ∀ j app, appointments three_days !! j = Some app → j < 1 →
                       app_id app ≠ "b").
  { intros j app Hj Hlt.
    destruct j as [|j]; [|lia]. vm_compute in Hj. injection Hj as <-.
    discriminate. }
  split; [|split].
  - apply (proj1 (edit_appointment_spec three_days "z" "2024-01-05" "10:00" "late")).
    apply Forall_forall, (bool_decide_unpack _). vm_compute. exact I.
  - apply (proj1 (proj2 (edit_appointment_spec three_days "c" "2024-01-01"
                           "09:00" "early") 2 _ eq_refl eq_refl Hfirst_c)).
    split; [|discriminate].
    apply (bool_decide_unpack _); vm_compute; exact I.
  - destruct (proj2 (proj2 (edit_appointment_spec three_days "b" "2024-01-03"
                              "10:00" "late") 1 _ eq_refl eq_refl Hfirst_b))
      as [Hok _].
    { left. apply (bool_decide_unpack _); vm_compute; exact I. }
    split; [exact Hok|]. repeat split.
Defined.

(** ** Clients *)

(** C10 on a concrete store: Bob is the second client; the update renames
    him and gives him the id ["c9"], keeps his other keys, and leaves Ann
    as she was. *)
Lemma update_client_spec_witness :
  clients two_clients !! 1
    = Some (register_client ann_registered bob_info "c2" "t1").1
  ∧ (let r := update_client two_clients "c2" robert_info in
     r.1 = Return true ∧
     ∃ client' : Client,
       clients r.2 !! 1 = Some client' ∧
       client' !! "id" = Some (PStr "c9") ∧
       client' !! "name" = Some (PStr "Robert") ∧
       client' !! "email" = Some (PStr "bob@example.org") ∧
       clients r.2 !! 0 = clients two_clients !! 0 ∧
       appointments r.2 = appointments two_clients).
Proof.
  split; [reflexivity|].
  destruct (update_client_spec two_clients "c2" robert_info 1
              (register_client ann_registered bob_info "c2" "t1").1)
    as (Hret & client' & Hi & Hnew & Hid & Hold & Hothers & _ & Happs & _).
  - reflexivity.
  - reflexivity.
  - intros j c Hj Hc. destruct j as [|j]; [|lia].
    vm_compute in Hc. injection Hc as <-. by eexists.
  - cbv zeta. split; [exact Hret|]. exists client'.
    split; [exact Hi|]. split; [by apply Hid|]. split; [by apply Hnew|].
    split; [by rewrite Hold|]. split; [by apply Hothers|]. exact Happs.
Defined.

(** ** The daily status advancement *)

(** On a concrete store, with today 2 January 2024: the appointment of
    1 January is completed, that of 2 January is pending, that of 3 January
    is as it was. *)
Lemma run_daily_tasks_spec_witness :
  strptime "" = None
  ∧ strptime "2024-01-02" = Some 738887%Z
  ∧ dates_well_formed strptime three_days
  ∧ (let r := run_daily_tasks strptime three_days "2024-01-02" in
     r.1 = Return () ∧
     (status <$> appointments r.2) = ["Completed"; "Pending"; "Booked"]).
Proof.
  assert (Hwf : dates_well_formed strptime three_days).
  { apply Forall_forall. intros app Hin.
    assert (Hdate : date app ∈ date <$> appointments three_days)
      by by apply list_elem_of_fmap_2.
    revert Hdate. generalize (date app). apply Forall_forall.
    repeat constructor; by eexists. }
  split; [reflexivity|]. split; [reflexivity|]. split; [exact Hwf|].
  destruct (run_daily_tasks_spec strptime three_days "2024-01-02" 738887%Z
              eq_refl eq_refl Hwf) as (Hret & _).
  cbv zeta. split; [exact Hret|reflexivity].
Defined.

(** ** The financial report *)


(** ** The slots of a date *)

(** C5 as the claim has it fails in a reachable store: after Ann has booked
    09:00 on 1 January and [set_time_slots] has replaced the slots by 10:00
    and 10:30, the label 09:00 is in use on that date and is not configured,
    so the available and the used labels are not the configured ones. *)
Lemma slots_not_partitioned_after_set_time_slots :
  reachable strptime slots_replaced
  ∧ ("09:00" ∈ used_slots slots_replaced "2024-01-01")
  ∧ ("09:00" ∉ configured_slots slots_replaced)
  ∧ ¬ slots_partitioned slots_replaced "2024-01-01".
Proof.
  assert (Hused : "09:00" ∈ used_slots slots_replaced "2024-01-01").
  { apply elem_of_list_to_set, (bool_decide_unpack _). vm_compute. exact I. }
  assert (Hconf : "09:00" ∉ configured_slots slots_replaced).
  { intros Hin. apply elem_of_list_to_set in Hin. revert Hin.
    apply (bool_decide_unpack _). vm_compute. exact I. }
  split; [exact slots_replaced_reachable|]. split; [exact Hused|].
  split; [exact Hconf|]. intros [_ Hunion]. apply Hconf. rewrite <- Hunion.
  by apply elem_of_union_r.
Qed.

(** C5, amended, on a concrete store: after the two bookings, reached
    without [set_time_slots], the slots of 2 January are split. *)
Lemma slots_partitioned_keeping_slots_witness :
  reachable_keeping_slots strptime both_booked
  ∧ slots_partitioned both_booked "2024-01-02".
Proof.
  split; [exact both_booked_reachable|].
  exact (proj2 (slots_partitioned_keeping_slots strptime both_booked "2024-01-02")
           both_booked_reachable).
Defined.

(** ** Two appointments on one slot *)

(** C4 at its failing input.  Ann holds 09:00 on 1 January and Bob 09:00 on
    2 January, both [Booked]; editing Ann's appointment to Bob's date and
    slot succeeds, and leaves the two appointments on 09:00 of 2 January. *)
Theorem edit_onto_occupied_slot_succeeds :
  reachable strptime both_booked
  ∧ (app_id <$> appointments both_booked) = ["a"; "b"]
  ∧ (status <$> appointments both_booked) = ["Booked"; "Booked"]
  ∧ (date <$> appointments both_booked) = ["2024-01-01"; "2024-01-02"]
  ∧ (slot_number <$> appointments both_booked) = ["09:00"; "09:00"]
  ∧ edit_appointment both_booked "a" "2024-01-02" "09:00" "moved"
    = ((true, "Appointment successfully updated."), ann_moved)
  ∧ (date <$> appointments ann_moved) = ["2024-01-02"; "2024-01-02"]
  ∧ (slot_number <$> appointments ann_moved) = ["09:00"; "09:00"]
  ∧ (comment <$> appointments ann_moved) = ["moved"; ""].
Proof.
  split; [|by vm_compute].
  apply reachable_keeping_slots_reachable, both_booked_reachable.
Qed.

(** C2 at its failing input: the store that edit leaves is reachable, and
    holds two appointments that are not cancelled on 09:00 of 2 January. *)
Theorem edit_breaks_one_appointment_per_slot :
  reachable strptime ann_moved
  ∧ one_appointment_per_slot both_booked
  ∧ ¬ one_appointment_per_slot ann_moved.
Proof.
  split; [exact ann_moved_reachable|]. split.
  - apply make_appointment_one_per_slot, make_appointment_one_per_slot.
    intros i j a b Hi. by destruct i.
  - intros Hinv.
    assert (0 = 1) as Heq; [|discriminate Heq].
    by eapply (Hinv 0 1 _ _ eq_refl eq_refl).
Qed.

(** ** What the operations do on concrete inputs *)

Example strptime_ymd_epoch : strptime "1970-01-01" = Some 719163%Z.
Proof. reflexivity. Qed.

Example strptime_ymd_2024_03_01 : strptime "2024-03-01" = Some 738946%Z.
Proof. reflexivity. Qed.

Example strptime_ymd_unpadded : strptime "2024-3-1" = Some 738946%Z.
Proof. reflexivity. Qed.

Example strptime_ymd_no_such_day : strptime "2023-02-29" = None.
Proof. reflexivity. Qed.

Example strptime_ymd_unconverted : strptime "2024-03-011" = None.
Proof. reflexivity. Qed.

Example strptime_ymd_year_zero : strptime "0000-01-01" = None.
Proof. reflexivity. Qed.

(** A stored date that is not a date makes the report and the daily pass
    raise [ValueError]: the hypotheses on the stored dates of C7 and C8
    cannot be dropped. *)
Example get_report_data_raises :
  get_report_data 0%Z Z.add strptime booked_someday "2024-01-01" "2024-01-31"
  = Raise ValueError.
Proof. reflexivity. Qed.

Example run_daily_tasks_raises :
  (run_daily_tasks strptime booked_someday "2024-01-02").1 = Raise ValueError.
Proof. reflexivity. Qed.

(** An unpadded date is another date for the slots and the same day for the
    report. *)
Example unpadded_date_other_slots :
  get_available_slots ann_booked "2024-1-1" = default_time_slots.
Proof. reflexivity. Qed.

(** Deleting Ann leaves her appointment, which still names her. *)
Example delete_client_leaves_her_appointment :
  (delete_client ann_client_booked "c1").1 = Return true
  ∧ clients (delete_client ann_client_booked "c1").2 = []
  ∧ appointments (delete_client ann_client_booked "c1").2
    = appointments ann_client_booked
  ∧ (client_id <$> appointments (delete_client ann_client_booked "c1").2) = ["c1"]
  ∧ (client_name <$> appointments (delete_client ann_client_booked "c1").2)
    = ["Ann"].
Proof. repeat split. Qed.

Example delete_client_unknown :
  (delete_client two_clients "c7").1 = Return false.
Proof. reflexivity. Qed.

Example delete_client_known :
  (delete_client two_clients "c1").1 = Return true
  ∧ length (clients (delete_client two_clients "c1").2) = 1.
Proof. split; reflexivity. Qed.

(** * The further properties on concrete stores *)

#[local] Abbreviation lower := Text.lower_ascii.

Lemma empty_one_per_slot : one_appointment_per_slot empty.
Proof. intros i j a b Hi. by destruct i. Qed.

Lemma both_booked_one_per_slot : one_appointment_per_slot both_booked.
Proof.
  apply make_appointment_one_per_slot, make_appointment_one_per_slot,
    empty_one_per_slot.
Qed.

Lemma three_days_one_per_slot : one_appointment_per_slot three_days.
Proof. apply make_appointment_one_per_slot, both_booked_one_per_slot. Qed.

Lemma three_days_reachable : reachable_keeping_slots strptime three_days.
Proof.
  destruct both_booked_reachable as [s Hrtc]. exists s.
  eapply rtc_r; [exact Hrtc|].
  apply (call_make_appointment strptime both_booked).
  apply Forall_forall, (bool_decide_unpack _). vm_compute. exact I.
Qed.

Lemma two_clients_have_ids : clients_have_ids two_clients.
Proof. repeat constructor; by eexists. Qed.

Lemma two_clients_reachable : reachable strptime two_clients.
Proof.
  exists default_settings. apply (rtc_l _ _ ann_registered).
  - apply step_call, (call_register_client strptime empty).
    intros client Hin. inversion Hin.
  - apply rtc_once, step_call, (call_register_client strptime ann_registered).
    intros client Hin. apply list_elem_of_singleton in Hin as ->. discriminate.
Qed.

(** ** Slots *)

(** X2 on a concrete store: once the slots are 10:00 and 10:30, booking
    09:00 fails. *)
Lemma unconfigured_slot_refused_witness :
  ("09:00" ∉ time_slots (settings slots_replaced))
  ∧ make_appointment slots_replaced "2024-01-05" "c2" "Bob" "09:00" "" "b" "t2"
    = ((false, "Slot 09:00 is not available for this date."), slots_replaced).
Proof.
  assert (Hslot : "09:00" ∉ time_slots (settings slots_replaced))
    by (apply (bool_decide_unpack _); vm_compute; exact I).
  split; [exact Hslot|].
  exact (proj1 (unconfigured_slot_refused slots_replaced "09:00" Hslot)
           "2024-01-05" "c2" "Bob" "" "b" "t2").
Defined.

(** X3 on a concrete store: the two bookings leave one appointment per
    slot, and so does deleting Ann's. *)
Lemma one_appointment_per_slot_kept_witness :
  one_appointment_per_slot both_booked
  ∧ one_appointment_per_slot (delete_appointment both_booked "a").2.
Proof.
  split; [exact both_booked_one_per_slot|].
  exact (proj1 (proj2 (one_appointment_per_slot_kept strptime both_booked
                         both_booked_one_per_slot)) "a").
Defined.

(** X4 on a concrete store: moving Ann's appointment to 09:30 of 2 January,
    which is available, keeps one appointment per slot. *)
Lemma edit_appointment_keeps_one_per_slot_witness :
  one_appointment_per_slot both_booked
  ∧ ("09:30" ∈ get_available_slots both_booked "2024-01-02")
  ∧ one_appointment_per_slot
      (edit_appointment both_booked "a" "2024-01-02" "09:30" "moved").2.
Proof.
  assert (Hav : "09:30" ∈ get_available_slots both_booked "2024-01-02")
    by (apply (bool_decide_unpack _); vm_compute; exact I).
  split; [exact both_booked_one_per_slot|]. split; [exact Hav|].
  exact (edit_appointment_keeps_one_per_slot both_booked "a" "2024-01-02"
           "09:30" "moved" both_booked_one_per_slot (or_introl Hav)).
Defined.

(** X5 on a concrete store: Cy's appointment, on 09:30, cannot go to Ann's
    09:00 of 1 January. *)
Lemma edit_onto_other_label_fails_witness :
  appointments three_days !! 2 = Some cy_appointment
  ∧ ann_appointment ∈ appointments three_days
  ∧ edit_appointment three_days "c" "2024-01-01" "09:00" "early"
    = ((false, "Slot 09:00 is not available on 2024-01-01."), three_days).
Proof.
  assert (Hann : ann_appointment ∈ appointments three_days)
    by (apply (list_elem_of_lookup_2 _ 0); reflexivity).
  split; [reflexivity|]. split; [exact Hann|].
  apply (edit_onto_other_label_fails three_days "c" "early" 2 cy_appointment
           ann_appointment); [reflexivity|reflexivity| |exact Hann|
                              discriminate|discriminate].
  intros j app Hj Hlt.
  destruct j as [|[|j]]; [| |lia]; vm_compute in Hj; injection Hj as <-;
    discriminate.
Defined.

(** X7 on a concrete store: deleting Ann's appointment frees 09:00 of
    1 January. *)
Lemma delete_appointment_frees_slot_witness :
  ("09:00" ∉ get_available_slots three_days "2024-01-01")
  ∧ ("09:00" ∈ get_available_slots (delete_appointment three_days "a").2
                 "2024-01-01").
Proof.
  split; [apply (bool_decide_unpack _); vm_compute; exact I|].
  apply (delete_appointment_frees_slot three_days ann_appointment).
  - exact three_days_one_per_slot.
  - apply (list_elem_of_lookup_2 _ 0). reflexivity.
  - discriminate.
  - apply (bool_decide_unpack _); vm_compute; exact I.
Defined.

(** X8 on a concrete store: on 1 January fourteen slots are available and
    one is booked, of fifteen. *)
Lemma available_plus_booked_witness :
  NoDup (time_slots (settings three_days))
  ∧ slots_configured three_days
  ∧ length (get_available_slots three_days "2024-01-01") = 14
  ∧ get_booked_slots three_days "2024-01-01" = 1
  ∧ length (get_available_slots three_days "2024-01-01")
    + get_booked_slots three_days "2024-01-01"
    = get_total_slots_global three_days.
Proof.
  assert (Hslots : NoDup (time_slots (settings three_days)))
    by (apply (bool_decide_unpack _); vm_compute; exact I).
  assert (Hconf : slots_configured three_days)
    by exact (reachable_keeping_slots_configured strptime _ three_days_reachable).
  split; [exact Hslots|]. split; [exact Hconf|].
  split; [reflexivity|]. split; [reflexivity|].
  exact (available_plus_booked three_days "2024-01-01" Hslots
           three_days_one_per_slot Hconf).
Defined.

(** X9 on a concrete store: after the edit that doubles a slot, the ids are
    still distinct. *)
Lemma reachable_ids_unique_witness :
  reachable strptime ann_moved ∧ ids_unique ann_moved.
Proof.
  split; [exact ann_moved_reachable|].
  exact (proj1 (reachable_ids_unique strptime ann_moved ann_moved_reachable)).
Defined.

(** ** The daily pass and the report *)

(** X13 on a concrete store: with an appointment dated ["someday"], the
    daily pass of 2 January raises [ValueError] and leaves it as it was. *)
Lemma run_daily_tasks_raises_iff_witness :
  strptime "2024-01-02" = Some 738887%Z
  ∧ Exists (stops_daily strptime) (appointments booked_someday)
  ∧ (run_daily_tasks strptime booked_someday "2024-01-02").1 = Raise ValueError
  ∧ (run_daily_tasks strptime booked_someday "2024-01-02").2 = booked_someday.
Proof.
  assert (Hstops : Exists (stops_daily strptime) (appointments booked_someday)).
  { apply Exists_cons_hd. by repeat split. }
  split; [reflexivity|]. split; [exact Hstops|]. split; [|reflexivity].
  exact (proj2 (proj1 (proj2 (run_daily_tasks_raises_iff strptime
                  booked_someday "2024-01-02" 738887%Z eq_refl))) Hstops).
Defined.

(** X15 on a concrete store: from 3 January to 2 January the report is
    empty. *)
Lemma get_report_data_empty_witness :
  strptime "2024-01-03" = Some 738888%Z
  ∧ strptime "2024-01-02" = Some 738887%Z
  ∧ dates_well_formed strptime paid_and_unpaid
  ∧ get_report_data 0%Z Z.add strptime paid_and_unpaid "2024-01-03" "2024-01-02"
    = Return (Some {| total_revenue := 0%Z; total_paid := 0%Z;
                      total_unpaid := 0%Z; total_bookings := 0;
                      filtered_appointments := [] |}).
Proof.
  assert (Hwf : dates_well_formed strptime paid_and_unpaid).
  { repeat constructor; by eexists. }
  split; [reflexivity|]. split; [reflexivity|]. split; [exact Hwf|].
  apply (get_report_data_empty 0%Z Z.add strptime paid_and_unpaid
           "2024-01-03" "2024-01-02" 738888%Z 738887%Z eq_refl eq_refl Hwf).
  left. lia.
Defined.

(** ** Clients *)

(** X18 on a concrete store: Bob, registered after Ann with the fresh id
    ["c2"], is found by that id, and Ann by hers. *)
Lemma register_client_lookup_witness :
  clients_have_ids ann_registered
  ∧ get_client_by_id two_clients "c2" = Return (Some bob_client)
  ∧ get_client_by_id two_clients "c1" = get_client_by_id ann_registered "c1"
  ∧ bob_client !! "name" = Some (PStr "Bob").
Proof.
  assert (Hids : clients_have_ids ann_registered)
    by (repeat constructor; by eexists).
  assert (Hfresh : ∀ client : Client, client ∈ clients ann_registered →
                     client !! "id" ≠ Some (PStr "c2")).
  { intros client Hin. apply list_elem_of_singleton in Hin as ->. discriminate. }
  destruct (register_client_lookup ann_registered bob_info "c2" "t1"
              Hids Hfresh)
    as (_ & _ & _ & Hfields & _ & _ & Hfound & Hothers & _).
  split; [exact Hids|]. split; [exact Hfound|].
  split; [by apply Hothers|].
  apply (Hfields "name"). apply list_elem_of_here.
Defined.

(** X19 on a concrete store: deleting Ann of two clients returns [True],
    leaves Bob, and Ann is found no more. *)
Lemma delete_client_spec_witness :
  clients_have_ids two_clients
  ∧ (delete_client two_clients "c1").1 = Return true
  ∧ clients (delete_client two_clients "c1").2 = [bob_client]
  ∧ get_client_by_id (delete_client two_clients "c1").2 "c1" = Return None.
Proof.
  destruct (delete_client_spec two_clients "c1" two_clients_have_ids)
    as (_ & Htrue & _ & _ & Hgone).
  split; [exact two_clients_have_ids|]. split; [|split; [reflexivity|exact Hgone]].
  apply Htrue. exists ann_client. split; [apply list_elem_of_here|reflexivity].
Defined.

(** X20 on a concrete store: with a client without an id on file,
    deleting Ann raises [KeyError] and Ann stays. *)
Lemma delete_client_missing_id_witness :
  Exists (λ client : Client, client !! "id" = None) (clients with_stray_client)
  ∧ delete_client with_stray_client "c1" = (Raise KeyError, with_stray_client).
Proof.
  assert (Hbad : Exists (λ client : Client, client !! "id" = None)
                   (clients with_stray_client)).
  { apply Exists_cons_tl, Exists_cons_hd. reflexivity. }
  split; [exact Hbad|].
  exact (delete_client_missing_id with_stray_client "c1" Hbad).
Defined.

(** X21 on a concrete store: a comment on Bob, the second client, is put
    after his comments, of which there were none. *)
Lemma add_comment_spec_witness :
  clients_have_ids two_clients
  ∧ clients two_clients !! 1 = Some bob_client
  ∧ has_id "c2" bob_client
  ∧ bob_client !! "comments" = Some (PList [])
  ∧ (add_comment two_clients "c2" "called" "t5").1 = Return true
  ∧ clients (add_comment two_clients "c2" "called" "t5").2
    = <[1 := <["comments" :=
                 PList [PDict [("timestamp", PStr "t5");
                               ("text", PStr "called")]]]> bob_client]>
        (clients two_clients).
Proof.
  assert (Hfirst : ∀ j (c : Client), j < 1 → clients two_clients !! j = Some c →
                     ¬ has_id "c2" c).
  { intros j c Hj Hc. destruct j as [|j]; [|lia].
    vm_compute in Hc. injection Hc as <-. discriminate. }
  destruct (proj1 (proj2 (add_comment_spec two_clients "c2" "called" "t5"
                            two_clients_have_ids)
                     1 bob_client eq_refl eq_refl Hfirst) [] eq_refl)
    as (Hret & Hclients & _).
  split; [exact two_clients_have_ids|]. split; [reflexivity|].
  split; [reflexivity|]. split; [reflexivity|].
  split; [exact Hret|exact Hclients].
Defined.

(** X23 on a concrete store: a document uploaded for Bob is put in his
    documents; a failed copy changes nothing. *)
Lemma upload_document_to_client_spec_witness :
  clients_have_ids two_clients
  ∧ upload_document_to_client two_clients "c2" "scan.pdf"
      "client_documents/c2/scan.pdf" "t6" false "disk full"
    = (Return (false, "Error uploading file: disk full"), two_clients)
  ∧ (upload_document_to_client two_clients "c2" "scan.pdf"
       "client_documents/c2/scan.pdf" "t6" true "").1
    = Return (true, "File 'scan.pdf' uploaded successfully.").
Proof.
  assert (Hfirst : ∀ j (c : Client), j < 1 → clients two_clients !! j = Some c →
                     ¬ has_id "c2" c).
  { intros j c Hj Hc. destruct j as [|j]; [|lia].
    vm_compute in Hc. injection Hc as <-. discriminate. }
  split; [exact two_clients_have_ids|]. split.
  - exact (proj1 (proj2 (upload_document_to_client_spec two_clients "c2"
                           "scan.pdf" "client_documents/c2/scan.pdf" "t6"
                           false "disk full" two_clients_have_ids)
                    1 bob_client eq_refl eq_refl Hfirst) eq_refl).
  - rewrite (proj1 (proj2 (proj2 (upload_document_to_client_spec two_clients
                "c2" "scan.pdf" "client_documents/c2/scan.pdf" "t6" true ""
                two_clients_have_ids)
              1 bob_client eq_refl eq_refl Hfirst)) eq_refl []
              (or_introl eq_refl)).
    reflexivity.
Defined.

(** X25 on a concrete store: the two registered clients have ids, and
    looking up an id that no client has returns [None]. *)
Lemma reachable_clients_have_ids_witness :
  reachable strptime two_clients
  ∧ clients_have_ids two_clients
  ∧ get_client_by_id two_clients "c7" = Return None.
Proof.
  split; [exact two_clients_reachable|].
  split; [|reflexivity].
  exact (proj1 (reachable_clients_have_ids strptime two_clients
                  two_clients_reachable)).
Defined.

(** X27 on a concrete store: the empty query finds Ann and Bob. *)
Lemma get_client_by_name_or_email_all_witness :
  lower "" = ""
  ∧ get_client_by_name_or_email lower two_clients "" = Return (clients two_clients).
Proof.
  split; [reflexivity|].
  apply (get_client_by_name_or_email_all lower two_clients eq_refl).
  constructor; [right; by eexists|]. constructor; [right; by eexists|].
  constructor.
Defined.


(** The search lowers the query and the fields it looks at. *)
Example search_is_case_blind :
  get_client_by_name_or_email lower two_clients "BOB" = Return [bob_client]
  ∧ get_client_by_name_or_email lower two_clients "ANN@" = Return [ann_client]
  ∧ get_client_by_name_or_email lower two_clients "example"
    = Return [ann_client; bob_client]
  ∧ get_client_by_name_or_email lower two_clients "carol" = Return [].
Proof. repeat split. Qed.

(** X29 on a concrete store: on 2 January the report of the day has the
    header and the rows of the two appointments of that day; on 5 January
    there is nothing to export. *)
Lemma export_daily_report_to_csv_spec_witness :
  strptime "2024-01-02" = Some 738887%Z
  ∧ dates_well_formed strptime paid_and_unpaid
  ∧ export_daily_report_to_csv 0%Z Z.add strptime pretty paid_and_unpaid
      "2024-01-02" None
    = Return ((true, "Report exported successfully."),
              Some [daily_report_fieldnames;
                    ["a"; "Ann"; "2024-01-02"; "09:00"; "Paid"; "50"; "Booked"; ""];
                    ["b"; "Bob"; "2024-01-02"; "09:30"; "Unpaid"; "70"; "Booked"; ""]])
  ∧ export_daily_report_to_csv 0%Z Z.add strptime pretty paid_and_unpaid
      "2024-01-05" None
    = Return ((false, "No data to export for today."), None).
Proof.
  assert (Hwf : dates_well_formed strptime paid_and_unpaid).
  { repeat constructor; by eexists. }
  split; [reflexivity|]. split; [exact Hwf|]. split.
  - rewrite (proj2 (proj2 (export_daily_report_to_csv_spec 0%Z Z.add strptime
               pretty paid_and_unpaid "2024-01-02" 738887%Z None eq_refl) Hwf));
      [reflexivity|discriminate].
  - apply (proj1 (proj2 (export_daily_report_to_csv_spec 0%Z Z.add strptime
             pretty paid_and_unpaid "2024-01-05" 738890%Z None eq_refl) Hwf)).
    reflexivity.
Defined.

(** * Stored dates that are not dates, and clients with one id *)


Lemma same_ids_reachable : reachable strptime same_ids.
Proof.
  destruct two_clients_reachable as [s Hrtc].
  exists s. eapply rtc_r; [exact Hrtc|].
  apply step_call, call_update_client.
Qed.




(** C10 as the claim has it fails in a reachable store: when Bob has been
    given Ann's id, [update_client] with that id renames Ann, the first of
    the two, and leaves Bob, who is present with that id, as he was. *)
Lemma update_client_skips_later_client :
  reachable strptime same_ids
  ∧ x_info !! "name" = Some (PStr "X")
  ∧ (update_client same_ids "c1" x_info).1 = Return true
  ∧ ∃ ann bob : Client,
      clients same_ids !! 0 = Some ann
      ∧ clients same_ids !! 1 = Some bob
      ∧ ann !! "id" = Some (PStr "c1")
      ∧ bob !! "id" = Some (PStr "c1")
      ∧ bob !! "name" = Some (PStr "Bob")
      ∧ clients (update_client same_ids "c1" x_info).2 !! 1 = Some bob
      ∧ ∃ ann' : Client,
          clients (update_client same_ids "c1" x_info).2 !! 0 = Some ann'
          ∧ ann' !! "name" = Some (PStr "X").
Proof.
  split; [exact same_ids_reachable|]. split; [reflexivity|].
  split; [reflexivity|]. do 2 eexists.
  split; [reflexivity|]. split; [reflexivity|]. split; [reflexivity|].
  split; [reflexivity|]. split; [reflexivity|]. split; [reflexivity|].
  eexists. split; reflexivity.
Qed.
